(** * es.mkelastic.api: array-aware cursor of the Elasticsearch DB-API driver

    A shallow embedding of [src/es/mkelastic/api.py] and proofs about the
    Type Mapper, the Row Processor, the Array Detector and the Cursor.

    Python values are kept as the interpreter has them: immediate scalars,
    and references into a store for the mutable containers (lists, dicts),
    so that sharing between a server response and a published row is
    visible.  Exceptions are results of type [result]; the cursor, the
    store and the log of calls made to the cluster are threaded through a
    small state-and-exception monad [M].

    Strings are sequences of code points; the model covers the code points
    below 256.  On those, [lower] is Python's [str.lower].  Numbers are
    integers: floating-point values are outside the model. *)

From Stdlib Require Import ZArith Lia Bool Ascii String List DecimalString.
From stdpp Require Import base list strings gmap.
Import ListNotations.

Local Open Scope string_scope.
Local Open Scope list_scope.

(** ** Python runtime: exceptions, values, store *)

Module Py.

Inductive exn : Type :=
| TypeError
| ValueError
| IndexError
| KeyError
| RecursionError
| InvalidVersion                          (* packaging.version *)
| ClosedResourceError                     (* operation on a closed cursor *)
| EsConnectionError (info : string)       (* elasticsearch.exceptions *)
| EsNotFoundError (error info : string)
| EsTransportError (name : string)
| DataError (msg : string)                (* es.exceptions.DataError *)
| OperationalError (msg : string)         (* es.exceptions.OperationalError *)
| ProgrammingError (msg : string).        (* es.exceptions.ProgrammingError *)

Inductive result (A : Type) : Type :=
| Ok (a : A)
| Raise (e : exn).
Arguments Ok {A} a.
Arguments Raise {A} e.

Definition rbind {A B} (r : result A) (k : A -> result B) : result B :=
  match r with
  | Ok a => k a
  | Raise e => Raise e
  end.

Abbreviation loc := nat (only parsing).

(** Hashable scalars, the keys of a dict. *)
Inductive key : Type :=
| KNone
| KBool (b : bool)
| KInt (z : Z)
| KStr (s : string).

Inductive val : Type :=
| VNone
| VBool (b : bool)
| VInt (z : Z)
| VStr (s : string)
| VRef (l : loc).

Inductive obj : Type :=
| OList (items : list val)
| ODict (kvs : list (key * val)).

(** The store: object [l] is the [l]-th entry; allocation appends. *)
Abbreviation store := (list obj) (only parsing).

Definition alloc (o : obj) (h : store) : val * store :=
  (VRef (length h), h ++ [o]).

Definition val_of_key (k : key) : val :=
  match k with
  | KNone => VNone
  | KBool b => VBool b
  | KInt z => VInt z
  | KStr s => VStr s
  end.

(** [hash(v)]: lists and dicts are unhashable. *)
Definition key_of_val (v : val) : result key :=
  match v with
  | VNone => Ok KNone
  | VBool b => Ok (KBool b)
  | VInt z => Ok (KInt z)
  | VStr s => Ok (KStr s)
  | VRef _ => Raise TypeError
  end.

(** [k1 == k2] on keys: [True == 1] and [False == 0]. *)
Definition key_eqb (k1 k2 : key) : bool :=
  match k1, k2 with
  | KNone, KNone => true
  | KBool a, KBool b => Bool.eqb a b
  | KBool a, KInt z | KInt z, KBool a => (z =? (if a then 1 else 0))%Z
  | KInt a, KInt b => (a =? b)%Z
  | KStr a, KStr b => String.eqb a b
  | _, _ => false
  end.

(** [d.get(k)] *)
Fixpoint dict_get (kvs : list (key * val)) (k : key) : option val :=
  match kvs with
  | [] => None
  | (k', v) :: rest => if key_eqb k' k then Some v else dict_get rest k
  end.

(** [d[k] = v]: an existing key keeps its place. *)
Fixpoint dict_set (kvs : list (key * val)) (k : key) (v : val)
  : list (key * val) :=
  match kvs with
  | [] => [(k, v)]
  | (k', v') :: rest =>
      if key_eqb k' k then (k', v) :: rest else (k', v') :: dict_set rest k v
  end.

(** [d[k] = x] on a dict object of the store. *)
Definition setitem (h : store) (d : val) (k : key) (x : val) : store :=
  match d with
  | VRef l =>
      match h !! l with
      | Some (ODict kvs) => <[l := ODict (dict_set kvs k x)]> h
      | _ => h
      end
  | _ => h
  end.

Definition is_dict (h : store) (v : val) : bool :=
  match v with
  | VRef l => match h !! l with Some (ODict _) => true | _ => false end
  | _ => false
  end.

Definition is_list (h : store) (v : val) : bool :=
  match v with
  | VRef l => match h !! l with Some (OList _) => true | _ => false end
  | _ => false
  end.

(** *** Strings *)

Definition lower_char (c : ascii) : ascii :=
  let n := N_of_ascii c in
  if ((65 <=? n) && (n <=? 90)
      || (192 <=? n) && (n <=? 222) && negb (n =? 215))%N
  then ascii_of_N (n + 32)
  else c.

(** [s.lower()] *)
Fixpoint lower (s : string) : string :=
  match s with
  | EmptyString => EmptyString
  | String c r => String (lower_char c) (lower r)
  end.

(** [s.startswith(p)] *)
Fixpoint startswith (p s : string) : bool :=
  match p, s with
  | EmptyString, _ => true
  | String a p', String b s' => Ascii.eqb a b && startswith p' s'
  | String _ _, EmptyString => false
  end.

(** [needle in hay] *)
Fixpoint contains (needle hay : string) : bool :=
  startswith needle hay
  || match hay with
     | EmptyString => false
     | String _ r => contains needle r
     end.

(** [str(k)], as an f-string field formats it. *)
Definition str_of_key (k : key) : string :=
  match k with
  | KNone => "None"
  | KBool true => "True"
  | KBool false => "False"
  | KInt z => NilZero.string_of_int (Z.to_int z)
  | KStr s => s
  end.

(** *** [int(s)] on a str: surrounding white space, a sign, decimal digits
    with single underscores between them. *)

Definition is_space (c : ascii) : bool :=
  let n := N_of_ascii c in
  ((9 <=? n) && (n <=? 13) || (28 <=? n) && (n <=? 32)
   || (n =? 133) || (n =? 160))%N.

Fixpoint lstrip (s : string) : string :=
  match s with
  | String c r => if is_space c then lstrip r else s
  | EmptyString => EmptyString
  end.

Fixpoint rstrip (s : string) : string :=
  match s with
  | EmptyString => EmptyString
  | String c r =>
      match rstrip r with
      | EmptyString => if is_space c then EmptyString else String c EmptyString
      | r' => String c r'
      end
  end.

Definition digit_of (c : ascii) : option Z :=
  let n := N_of_ascii c in
  if ((48 <=? n) && (n <=? 57))%N then Some (Z.of_N n - 48)%Z else None.

Inductive digit_state := AtStart | AfterDigit | AfterUnderscore.

Fixpoint digits (st : digit_state) (acc : Z) (s : string) : option Z :=
  match s with
  | EmptyString =>
      match st with AfterDigit => Some acc | _ => None end
  | String c r =>
      match digit_of c with
      | Some d => digits AfterDigit (10 * acc + d)%Z r
      | None =>
          if Ascii.eqb c "_"%char
          then match st with
               | AfterDigit => digits AfterUnderscore acc r
               | _ => None
               end
          else None
      end
  end.

Definition int_of_str (s : string) : result Z :=
  let body := rstrip (lstrip s) in
  let parsed :=
    match body with
    | String "-"%char r => option_map Z.opp (digits AtStart 0 r)
    | String "+"%char r => digits AtStart 0 r
    | _ => digits AtStart 0 body
    end in
  match parsed with
  | Some z => Ok z
  | None => Raise ValueError
  end.

(** *** [dict(item)] *)

(** One element of the sequence handed to [dict]: it must itself be a
    sequence of two items, the first of them hashable. *)
Definition pair_of_element (h : store) (e : val) : result (key * val) :=
  match e with
  | VStr (String a (String b EmptyString)) =>
      Ok (KStr (String a EmptyString), VStr (String b EmptyString))
  | VStr _ => Raise ValueError
  | VRef l =>
      match h !! l with
      | Some (OList [k; v]) => rbind (key_of_val k) (fun k' => Ok (k', v))
      | Some (OList _) => Raise ValueError
      | Some (ODict [(k1, _); (k2, _)]) => Ok (k1, val_of_key k2)
      | Some (ODict _) => Raise ValueError
      | None => Raise TypeError
      end
  | _ => Raise TypeError
  end.

Fixpoint dict_of_pairs (h : store) (acc : list (key * val)) (xs : list val)
  : result (list (key * val)) :=
  match xs with
  | [] => Ok acc
  | e :: rest =>
      rbind (pair_of_element h e) (fun '(k, v) =>
      dict_of_pairs h (dict_set acc k v) rest)
  end.

(** [dict(item)]: a mapping is copied key by key into a new object (the
    values are shared); any other argument is read as a sequence of
    key/value pairs.  A reference that the store does not bind stands for
    an object of some other class. *)
Definition dict (h : store) (item : val) : result (val * store) :=
  match item with
  | VRef l =>
      match h !! l with
      | Some (ODict kvs) => Ok (alloc (ODict kvs) h)
      | Some (OList xs) =>
          rbind (dict_of_pairs h [] xs) (fun kvs => Ok (alloc (ODict kvs) h))
      | None => Raise TypeError
      end
  | VStr EmptyString => Ok (alloc (ODict []) h)
  | VStr _ => Raise ValueError
  | _ => Raise TypeError
  end.

End Py.
Import Py.

Notation "'let*' x ':=' r 'in' k" := (rbind r (fun x => k))
  (at level 10, x pattern, r at level 100, k at level 200).


(** ** Type Mapper *)

(** Modelled from the spec: the members of [es.baseapi.Type], of which this
    file uses [STRING] only; [ESType] extends them with [ARRAY]. *)
Inductive ESType : Type :=
| STRING | LONG | DOUBLE | BOOLEAN | DATE
| ARRAY.

Definition ESType_eqb (a b : ESType) : bool :=
  match a, b with
  | STRING, STRING | LONG, LONG | DOUBLE, DOUBLE
  | BOOLEAN, BOOLEAN | DATE, DATE | ARRAY, ARRAY => true
  | _, _ => false
  end.

Definition from_es_type (es_type : string) (is_array : bool) : ESType :=
  if is_array then ARRAY else STRING.

(** [es.baseapi.CursorDescriptionRow], the seven fields of a DB-API
    description entry. *)
Record CursorDescriptionRow : Type := mkDescriptionRow {
  name : string;
  type_code : ESType;
  display_size : option Z;
  internal_size : option Z;
  precision : option Z;
  scale : option Z;
  null_ok : option bool
}.

(** One entry of the [columns] field of a SQL response; either key may be
    missing. *)
Record column : Type := mkColumn {
  col_name : option string;
  col_type : option string
}.

Definition get_description_from_columns_with_arrays (columns : list column)
  : list CursorDescriptionRow :=
  map (fun column =>
         let type_code :=
           from_es_type (default "string" (col_type column))
                        (contains "array" (lower (default "" (col_type column)))) in
         mkDescriptionRow (default "" (col_name column)) type_code
                          None None None None None)
      columns.

(** ** Row Processor *)

(** [[dict(item) for item in value]] *)
Fixpoint copy_items (h : store) (items : list val) : result (list val * store) :=
  match items with
  | [] => Ok ([], h)
  | item :: rest =>
      let* (c, h1) := dict h item in
      let* (cs, h2) := copy_items h1 rest in
      Ok (c :: cs, h2)
  end.

Definition _process_array_value (h : store) (value : val) : result (val * store) :=
  match value with
  | VRef l =>
      match h !! l with
      | Some (OList ((first :: _) as items)) =>
          if is_dict h first
          then let* (copies, h1) := copy_items h items in
               Ok (alloc (OList copies) h1)
          else Ok (value, h)
      | _ => Ok (value, h)
      end
  | _ => Ok (value, h)
  end.

(** [self.description and idx < len(self.description)], then
    [self.description[idx]]. *)
Definition aligned (description : option (list CursorDescriptionRow)) (idx : nat)
  : option CursorDescriptionRow :=
  match description with
  | Some ds => ds !! idx
  | None => None
  end.

(** The loop of [_process_row] from position [idx] on. *)
Fixpoint process_from (description : option (list CursorDescriptionRow))
    (idx : nat) (row : list val) (h : store) : result (list val * store) :=
  match row with
  | [] => Ok ([], h)
  | value :: rest =>
      match aligned description idx with
      | Some d =>
          if ESType_eqb (type_code d) ARRAY
          then let* (v, h1) := _process_array_value h value in
               let* (vs, h2) := process_from description (S idx) rest h1 in
               Ok (v :: vs, h2)
          else let* (vs, h2) := process_from description (S idx) rest h in
               Ok (value :: vs, h2)
      | None => process_from description (S idx) rest h
      end
  end.

Definition _process_row (description : option (list CursorDescriptionRow))
    (row : list val) (h : store) : result (list val * store) :=
  process_from description 0 row h.

Fixpoint find_col (idx : nat) (ds : list CursorDescriptionRow)
    (row : list val) (col : string) : result val :=
  match ds with
  | [] => Ok VNone
  | col_description :: rest =>
      if String.eqb (name col_description) col
      then match row !! idx with
           | Some v => Ok v
           | None => Raise IndexError
           end
      else find_col (S idx) rest row col
  end.

Definition _get_value_for_col_name
    (description : option (list CursorDescriptionRow))
    (row : list val) (col : string) : result val :=
  match description with
  | Some ds => find_col 0 ds row col
  | None => Raise TypeError
  end.

(** ** The cluster, as the cursor sees it *)

(** What the Elasticsearch client hands back: the decoded reply, or one of
    its exceptions. *)
Inductive reply (A : Type) : Type :=
| Reply (a : A)
| Fails (e : exn).
Arguments Reply {A} a.
Arguments Fails {A} e.

Record sql_response : Type := mkResponse {
  resp_columns : option (list column);        (* results.get('columns') *)
  resp_rows : option (list (list val))        (* results.get('rows') *)
}.

Record cat_index : Type := mkCatIndex {
  index : string;                             (* item['index'] *)
  docs_count : option string                  (* item['docs.count'], or null *)
}.

Record field_mapping : Type := mkFieldMapping {
  fm_type : option val                        (* field_mapping.get('type') *)
}.

Record index_mapping : Type := mkIndexMapping {
  properties : option (list (string * field_mapping))
}.

Record hit : Type := mkHit {
  _source : option (list (key * val))
}.

Record search_response : Type := mkSearch {
  total_value : Z;                            (* response: hits, total, value *)
  hits : list hit                             (* response: hits, hits *)
}.

(** The requests a cursor sends; the world keeps them in order. *)
Inductive call : Type :=
| CallSql (query : string)
| CallCatIndices
| CallInfo
| CallGetMapping (index : string)
| CallSearch (index : string).

(** The objects that a reply refers to are in the store when the reply is
    read. *)
Record cluster : Type := mkCluster {
  sql : string -> result sql_response;
  cat_indices : reply (list cat_index);
  info_version_number : reply string;         (* info(): version, number *)
  indices_get_mapping : string -> reply (list (string * index_mapping));
  search : string -> reply search_response
}.

(** Library code the file imports: [es.baseapi.apply_parameters] and the
    comparison of [packaging.version]. *)
Class Libraries : Type := {
  params : Type;
  apply_parameters : string -> option params -> result string;
  version_ge : string -> string -> result bool
}.

(** ** Cursor state and the monad of its methods *)

Record cursor : Type := mkCursor {
  url : string;
  closed : bool;
  description : option (list CursorDescriptionRow);
  _results : list (list val)
}.

Record world : Type := mkWorld {
  self : cursor;
  objects : store;
  calls : list call
}.

Definition M (A : Type) : Type := world -> result A * world.

Definition ret {A} (a : A) : M A := fun w => (Ok a, w).

Definition raise {A} (e : exn) : M A := fun w => (Raise e, w).

Definition bind {A B} (m : M A) (k : A -> M B) : M B :=
  fun w =>
    match m w with
    | (Ok a, w') => k a w'
    | (Raise e, w') => (Raise e, w')
    end.

Notation "x <- m ;; k" := (bind m (fun x => k))
  (at level 100, m at next level, right associativity).
Notation "m ;;; k" := (bind m (fun _ => k))
  (at level 100, right associativity).

Definition lift {A} (r : result A) : M A := fun w => (r, w).

Definition get_self : M cursor := fun w => (Ok (self w), w).

Definition set_description (d : list CursorDescriptionRow) : M unit :=
  fun w =>
    (Ok tt,
     mkWorld (mkCursor (url (self w)) (closed (self w)) (Some d)
                       (_results (self w)))
             (objects w) (calls w)).

Definition set_results (rows : list (list val)) : M unit :=
  fun w =>
    (Ok tt,
     mkWorld (mkCursor (url (self w)) (closed (self w))
                       (description (self w)) rows)
             (objects w) (calls w)).

(** A computation on the store; the objects it allocated before raising
    are unreachable and dropped. *)
Definition on_store {A} (f : store -> result (A * store)) : M A :=
  fun w =>
    match f (objects w) with
    | Ok (a, h) => (Ok a, mkWorld (self w) h (calls w))
    | Raise e => (Raise e, w)
    end.

Definition read_store {A} (f : store -> result A) : M A :=
  fun w => (f (objects w), w).

(** A request to the cluster: logged, then answered. *)
Definition request {A} (c : call) (r : reply A) : M A :=
  fun w =>
    let w' := mkWorld (self w) (objects w) (calls w ++ [c]) in
    match r with
    | Reply a => (Ok a, w')
    | Fails e => (Raise e, w')
    end.

Fixpoint mapM {A B} (f : A -> M B) (l : list A) : M (list B) :=
  match l with
  | [] => ret []
  | a :: rest => b <- f a ;; bs <- mapM f rest ;; ret (b :: bs)
  end.

(** Modelled from the spec: the [check_closed] decorator of [es.baseapi];
    every operation on a closed cursor fails with a closed-resource
    error. *)
Definition check_closed : M unit :=
  fun w => if closed (self w) then (Raise ClosedResourceError, w) else (Ok tt, w).

(** [BaseCursor.elastic_query]: the statement goes to the SQL endpoint. *)
Definition elastic_query (cl : cluster) (query : string) : M sql_response :=
  fun w =>
    (sql cl query, mkWorld (self w) (objects w) (calls w ++ [CallSql query])).

(** ** Table and view listing *)

(** [item['index'] == v] *)
Definition str_eq_val (s : string) (v : val) : bool :=
  match v with
  | VStr s' => String.eqb s s'
  | _ => false
  end.

(** [int(item['docs.count'])] *)
Definition int_of_count (c : option string) : result Z :=
  match c with
  | Some s => int_of_str s
  | None => Raise TypeError
  end.

(** The inner loop: is some listed index with this row's name empty? *)
Fixpoint is_empty (description : option (list CursorDescriptionRow))
    (result : list val) (response : list cat_index) : Py.result bool :=
  match response with
  | [] => Ok false
  | item :: rest =>
      let* n := _get_value_for_col_name description result "name" in
      if str_eq_val (index item) n
      then let* c := int_of_count (docs_count item) in
           if (c =? 0)%Z then Ok true else is_empty description result rest
      else is_empty description result rest
  end.

(** The outer loop over the rows of [SHOW TABLES]. *)
Fixpoint valid_rows (description : option (list CursorDescriptionRow))
    (response : list cat_index) (type_filter : string)
    (results : list (list val)) : Py.result (list (list val)) :=
  match results with
  | [] => Ok []
  | result :: rest =>
      let* e := is_empty description result response in
      let* keep :=
        (if e then Ok false
         else let* t := _get_value_for_col_name description result "type" in
              Ok (str_eq_val type_filter t)) in
      let* more := valid_rows description response type_filter rest in
      Ok (if keep then result :: more else more)
  end.

Inductive method : Type :=
| m_get_valid_table_names
| m_get_valid_view_names.

Definition custom_sql_to_method : list (string * method) :=
  [ ("show valid_tables", m_get_valid_table_names);
    ("show valid_views", m_get_valid_view_names) ].

Fixpoint assoc {A} (k : string) (l : list (string * A)) : option A :=
  match l with
  | [] => None
  | (k', a) :: rest => if String.eqb k' k then Some a else assoc k rest
  end.

(** Modelled from the spec: [BaseCursor.custom_sql_to_method_dispatcher] of
    [es.baseapi]; the statement is normalised to lower case and looked up,
    as an exact match, in [custom_sql_to_method]; the method found is run. *)
Definition custom_sql_to_method_dispatcher (run : method -> M unit)
    (command : string) : M bool :=
  match assoc (lower command) custom_sql_to_method with
  | Some m => run m ;;; ret true
  | None => ret false
  end.

(** [re.match] of the pattern SHOW ARRAY_COLUMNS FROM followed by one
    group of any characters but a newline: the group runs to the end of the
    first line. *)
Fixpoint strip_prefix (p s : string) : option string :=
  match p, s with
  | EmptyString, _ => Some s
  | String a p', String b s' =>
      if Ascii.eqb a b then strip_prefix p' s' else None
  | String _ _, EmptyString => None
  end.

Fixpoint first_line (s : string) : string :=
  match s with
  | EmptyString => EmptyString
  | String c r =>
      if Ascii.eqb c "010"%char then EmptyString else String c (first_line r)
  end.

Definition re_table_name (operation : string) : option string :=
  option_map first_line (strip_prefix "SHOW ARRAY_COLUMNS FROM " operation).

(** ** Array Detector *)

(** The entries one mapped field contributes (the body of the loop over
    [properties.items()]). *)
Definition field_array_columns (h : store) (source : list (key * val))
    (field_name : string) (fm : field_mapping) : result (list (list val)) :=
  match fm_type fm with
  | Some (VStr _ as array_type) =>
      match dict_get source (KStr field_name) with
      | Some (VRef l) =>
          match h !! l with
          | Some (OList value) =>
              match value with
              | [] => Raise IndexError
              | VRef l0 :: _ =>
                  match h !! l0 with
                  | Some (ODict kvs) =>
                      Ok (map (fun nested_field =>
                                 [VStr (field_name ++ "." ++ str_of_key nested_field);
                                  array_type])
                              (map fst kvs))
                  | _ => Ok [[VStr field_name; array_type]]
                  end
              | _ :: _ => Ok [[VStr field_name; array_type]]
              end
          | _ => Ok []
          end
      | _ => Ok []
      end
  | _ => Ok []
  end.

Fixpoint scan_properties (h : store) (source : list (key * val))
    (props : list (string * field_mapping)) (array_columns : list (list val))
  : result (list (list val)) :=
  match props with
  | [] => Ok array_columns
  | (field_name, fm) :: rest =>
      let* found := field_array_columns h source field_name fm in
      scan_properties h source rest (array_columns ++ found)
  end.

(** The two [except] clauses of [get_array_type_columns]. *)
Definition translate (u : string) (e : exn) : exn :=
  match e with
  | EsConnectionError info =>
      OperationalError ("Error connecting to " ++ u ++ ": " ++ info)
  | EsNotFoundError error info =>
      ProgrammingError ("Error (" ++ error ++ "): " ++ info)
  | _ => e
  end.

Definition try_except {A} (handler : exn -> exn) (m : M A) : M A :=
  fun w =>
    match m w with
    | (Raise e, w') => (Raise (handler e), w')
    | r => r
    end.

Definition get_array_type_columns (cl : cluster) (table_name : string) : M unit :=
  c <- get_self ;;
  array_columns <-
    try_except (translate (url c))
      (mapping <- request (CallGetMapping table_name)
                          (indices_get_mapping cl table_name) ;;
       im <- lift (match assoc table_name mapping with
                   | Some im => Ok im
                   | None => Raise KeyError
                   end) ;;
       let properties := default [] (properties im) in
       response <- request (CallSearch table_name) (search cl table_name) ;;
       if (total_value response >? 0)%Z
       then hit0 <- lift (match hits response with
                          | h0 :: _ => Ok h0
                          | [] => Raise IndexError
                          end) ;;
            source <- lift (match _source hit0 with
                            | Some s => Ok s
                            | None => Raise KeyError
                            end) ;;
            read_store (fun h => scan_properties h source properties [])
       else ret []) ;;
  set_description
    [ mkDescriptionRow "name" STRING None None None None None;
      mkDescriptionRow "type" STRING None None None None None ] ;;;
  set_results array_columns.

(** ** [execute] and the methods it dispatches to *)

(** [self._process_row(row)]: the row is aligned against the description
    the cursor holds when the call is made. *)
Definition self_process_row (row : list val) : M (list val) :=
  c <- get_self ;;
  on_store (_process_row (description c) row).

Section Cursor.
Context {libraries : Libraries}.

(** [truthy columns]: the response has a non-empty [columns] field. *)
Definition columns_of (results : sql_response) : option (list column) :=
  match resp_columns results with
  | Some (c :: cs) => Some (c :: cs)
  | _ => None
  end.

(** The last part of [execute]: a real SQL statement. *)
Definition execute_sql (cl : cluster) (operation : string)
    (parameters : option params) : M unit :=
  query <- lift (apply_parameters operation parameters) ;;
  results <- elastic_query cl query ;;
  rows <- mapM self_process_row (default [] (resp_rows results)) ;;
  match columns_of results with
  | None =>
      raise (DataError "Missing columns field, maybe it's an opendistro sql ep")
  | Some columns =>
      set_results rows ;;;
      set_description (get_description_from_columns_with_arrays columns)
  end.

(** [results = self.execute('SHOW TABLES')] is the call of [execute_];
    iterating the cursor visits the rows that call published. *)
Definition get_valid_table_view_names (execute_ : string -> M unit)
    (cl : cluster) (type_filter : string) : M unit :=
  execute_ "SHOW TABLES" ;;;
  response <- request CallCatIndices (cat_indices cl) ;;
  c <- get_self ;;
  rows <- lift (valid_rows (description c) response type_filter (_results c)) ;;
  set_results rows.

Definition get_valid_table_names (execute_ : string -> M unit) (cl : cluster)
  : M unit :=
  number <- request CallInfo (info_version_number cl) ;;
  newer <- lift (version_ge number "7.10.0") ;;
  if (newer : bool)
  then get_valid_table_view_names execute_ cl "TABLE"
  else get_valid_table_view_names execute_ cl "BASE TABLE".

Definition get_valid_view_names (execute_ : string -> M unit) (cl : cluster)
  : M unit :=
  get_valid_table_view_names execute_ cl "VIEW".

(** [execute] calls itself through [get_valid_table_view_names]; [depth]
    bounds the nesting of those calls. *)
Fixpoint execute_at (depth : nat) (cl : cluster) (operation : string)
    (parameters : option params) : M unit :=
  match depth with
  | O => raise RecursionError
  | S depth' =>
      check_closed ;;;
      let execute_ := fun op => execute_at depth' cl op None in
      found <- custom_sql_to_method_dispatcher
                 (fun m => match m with
                           | m_get_valid_table_names =>
                               get_valid_table_names execute_ cl
                           | m_get_valid_view_names =>
                               get_valid_view_names execute_ cl
                           end)
                 operation ;;
      if (found : bool) then ret tt
      else match re_table_name operation with
           | Some table_name => get_array_type_columns cl table_name
           | None => execute_sql cl operation parameters
           end
  end.

(** The nesting never exceeds two. *)
Definition execute : cluster -> string -> option params -> M unit :=
  execute_at 2.

End Cursor.

(** ** The SQLAlchemy dialect ([src/es/mkelastic/sqlalchemy.py])

    The dialect reads the rows that [connection.execute] returns by their
    column names.  The types of SQLAlchemy, [basesqlalchemy.get_type] and
    the list of unsupported mappings belong to code outside this file and
    are parameters. *)

Module Dialect.

(** The type of a reflected column: what [get_type] answers, or
    [ESArray(item_type)]. *)
Inductive column_type (sqltype : Type) : Type :=
| Plain (t : sqltype)
| ESArray (item_type : sqltype).
Arguments Plain {sqltype} t.
Arguments ESArray {sqltype} item_type.

Fixpoint drop_chars (n : nat) (s : string) : string :=
  match n, s with
  | S n', String _ r => drop_chars n' r
  | _, _ => s
  end.

Fixpoint take_chars (n : nat) (s : string) : string :=
  match n, s with
  | S n', String c r => String c (take_chars n' r)
  | _, _ => EmptyString
  end.

(** [s[start:-1]] *)
Definition slice_to_last (start : nat) (s : string) : string :=
  let r := drop_chars start s in
  take_chars (String.length r - 1) r.

(** A row of SHOW COLUMNS: [row.column], [row.mapping]. *)
Record columns_row : Type := mkColumnsRow {
  row_column : string;
  row_mapping : string
}.

(** A row of SHOW ARRAY_COLUMNS: [row.name], and [row.type] when the row
    has that attribute. *)
Record array_row : Type := mkArrayRow {
  row_name : string;
  row_type : option string
}.

(** The dict that describes one column. *)
Record col_info (sqltype : Type) : Type := mkColInfo {
  info_name : string;
  info_nullable : bool;
  info_default : val;
  info_type : column_type sqltype
}.
Arguments mkColInfo {sqltype} _ _ _ _.
Arguments info_name {sqltype} _.
Arguments info_nullable {sqltype} _.
Arguments info_default {sqltype} _.
Arguments info_type {sqltype} _.

(** The list comprehension of [get_table_names] and [get_view_names], over
    the names of the rows of the result. *)
Fixpoint get_table_names (result : list string) : Py.result (list string) :=
  match result with
  | [] => Ok []
  | table_name :: rest =>
      match table_name with
      | EmptyString => Raise IndexError
      | String c _ =>
          let* more := get_table_names rest in
          Ok (if Ascii.eqb c "."%char then more else table_name :: more)
      end
  end.

Definition get_view_names : list string -> Py.result (list string) :=
  get_table_names.

Section Columns.
Context {sqltype : Type}.
Variable get_type : string -> sqltype.
Variable String_type : sqltype.
Variable _not_supported_column_types : list string.

Definition _get_array_type (mapping : string) : option (column_type sqltype) :=
  if startswith "array<" mapping
  then Some (ESArray (get_type (slice_to_last 6 mapping)))
  else None.

(** The loop over the rows of SHOW ARRAY_COLUMNS: the set [array_columns]
    and the dict [array_types]. *)
Definition collect_arrays (array_columns_result : list array_row)
  : gset string * gmap string string :=
  fold_left
    (fun acc row =>
       let col_name := row_name row in
       ({[col_name]} ∪ acc.1,
        match row_type row with
        | Some t => <[col_name := t]> acc.2
        | None => acc.2
        end))
    array_columns_result (∅, ∅).

(** [get_columns], from the rows of its two statements. *)
Definition get_columns (all_columns : list columns_row)
    (array_columns_result : list array_row) : list (col_info sqltype) :=
  let arrays := collect_arrays array_columns_result in
  fold_left
    (fun columns row =>
       if bool_decide (row_mapping row ∈ _not_supported_column_types)
       then columns
       else
         let type :=
           if bool_decide (row_column row ∈ arrays.1)
           then ESArray match arrays.2 !! row_column row with
                        | Some t => get_type t
                        | None => String_type
                        end
           else Plain (get_type (row_mapping row)) in
         columns ++ [mkColInfo (row_column row) true VNone type])
    all_columns [].

End Columns.

End Dialect.

(** ** Vocabulary of the statements *)

(** *** Well-formed values

    A value of a row or of a document is well formed in a store when the
    store binds it and, if it is a list headed by a structured object,
    all its items are structured objects: the arrays of an index hold
    values of one kind. *)

Definition bound (h : store) (v : val) : bool :=
  match v with
  | VRef l => bool_decide (l < length h)
  | _ => true
  end.

Definition cell_ok (h : store) (v : val) : bool :=
  match v with
  | VRef l =>
      match h !! l with
      | Some (OList ((first :: _) as items)) =>
          bound h first && (negb (is_dict h first) || forallb (is_dict h) items)
      | Some _ => true
      | None => false
      end
  | _ => true
  end.

Definition row_ok (h : store) (row : list val) : bool := forallb (cell_ok h) row.

Definition rows_ok (h : store) (rows : list (list val)) : bool :=
  forallb (row_ok h) rows.

(** *** Row Processor *)

Definition description_length (description : option (list CursorDescriptionRow))
  : nat :=
  match description with
  | Some ds => length ds
  | None => 0
  end.

(** [item] is a structured object of [h], and [copy] a new object of [h']
    with the same keys and values. *)
Definition copied (h h' : store) (item copy : val) : Prop :=
  exists l l' kvs,
    item = VRef l /\ copy = VRef l' /\
    h !! l = Some (ODict kvs) /\ h' !! l' = Some (ODict kvs) /\
    length h <= l'.

(** What [_process_array_value] makes of [v]: [v] itself, or a new list
    of copies when [v] is a list headed by a structured object. *)
Definition normalised (h h' : store) (v v' : val) : Prop :=
  match v with
  | VRef l =>
      match h !! l with
      | Some (OList ((first :: _) as items)) =>
          if is_dict h first
          then exists l' copies,
                 v' = VRef l' /\ length h <= l' /\
                 h' !! l' = Some (OList copies) /\
                 Forall2 (copied h h') items copies
          else v' = v
      | _ => v' = v
      end
  | _ => v' = v
  end.

(** What the loop of [_process_row] makes of the value at one position. *)
Definition processed (description : option (list CursorDescriptionRow))
    (h h' : store) (out : list val) (idx j : nat) (v : val) : Prop :=
  match aligned description (idx + j) with
  | Some d =>
      exists v', out !! j = Some v' /\
        if ESType_eqb (type_code d) ARRAY then normalised h h' v v' else v' = v
  | None => out !! j = None
  end.

(** *** Statements *)

Inductive statement : Type :=
| ValidTables
| ValidViews
| ArrayColumns (table_name : string)
| RealSql.

(** The dispatch order of [execute]. *)
Definition classify (operation : string) : statement :=
  match assoc (lower operation) custom_sql_to_method with
  | Some m_get_valid_table_names => ValidTables
  | Some m_get_valid_view_names => ValidViews
  | None =>
      match re_table_name operation with
      | Some table_name => ArrayColumns table_name
      | None => RealSql
      end
  end.

(** *** Array Detector *)

(** The sampled value of a field, when it is an ordered sequence. *)
Definition sampled_sequence (h : store) (source : list (key * val))
    (field_name : string) : option (list val) :=
  match dict_get source (KStr field_name) with
  | Some (VRef l) =>
      match h !! l with
      | Some (OList value) => Some value
      | _ => None
      end
  | _ => None
  end.

Definition string_typed (fm : field_mapping) : bool :=
  match fm_type fm with
  | Some (VStr _) => true
  | _ => false
  end.

(** A structured object without keys. *)
Definition keyless (h : store) (v : val) : bool :=
  match v with
  | VRef l => match h !! l with Some (ODict []) => true | _ => false end
  | _ => false
  end.




(** ** Scenarios *)

Module Scenario.

(** A release number, as in 7.11.0; other version strings are not
    covered. *)
Fixpoint release (acc : option Z) (s : string) : option (list Z) :=
  match s with
  | EmptyString => option_map (fun n => [n]) acc
  | String c r =>
      match digit_of c with
      | Some d => release (Some (10 * default 0%Z acc + d)%Z) r
      | None =>
          if Ascii.eqb c "."%char
          then match acc with
               | Some n => option_map (cons n) (release None r)
               | None => None
               end
          else None
      end
  end.

Fixpoint lex_ge (a b : list Z) : bool :=
  match a, b with
  | x :: a', y :: b' => if (x =? y)%Z then lex_ge a' b' else (y <? x)%Z
  | _, _ => true
  end.

(** The order of [packaging.version] on release numbers: the shorter one
    is padded with zeros. *)
Definition release_ge (a b : string) : result bool :=
  match release None a, release None b with
  | Some ra, Some rb =>
      let n := Nat.max (length ra) (length rb) in
      Ok (lex_ge (ra ++ repeat 0%Z (n - length ra))
                 (rb ++ repeat 0%Z (n - length rb)))
  | _, _ => Raise InvalidVersion
  end.

(** Statements without parameters are sent as they are. *)
Definition plain : Libraries := {|
  params := Empty_set;
  apply_parameters := fun operation parameters =>
    match parameters with
    | None => Ok operation
    | Some p => match p with end
    end;
  version_ge := release_ge
|}.

(** A cursor on which nothing was executed yet. *)
Definition fresh : world :=
  mkWorld (mkCursor "http://localhost:9200/" false None []) [] [].

Definition keyword (n : string) : column := mkColumn (Some n) (Some "keyword").

Definition no_index {A} : reply A :=
  Fails (EsNotFoundError "index_not_found_exception" "no such index").

(** One column, one row. *)
Definition select_a : cluster :=
  mkCluster
    (fun _ => Ok (mkResponse (Some [mkColumn (Some "a") (Some "text")])
                             (Some [[VStr "x"]])))
    (Reply []) (Reply "7.11.0") (fun _ => no_index) (fun _ => no_index).

(** Scenario B: [orders] holds five documents, [empty_idx] none; the
    cluster reports version 7.11.0. *)
Definition show_tables : sql_response :=
  mkResponse
    (Some [keyword "catalog"; keyword "name"; keyword "type"; keyword "kind"])
    (Some [ [VStr "es"; VStr "orders"; VStr "TABLE"; VStr "INDEX"];
            [VStr "es"; VStr "empty_idx"; VStr "TABLE"; VStr "INDEX"] ]).

Definition two_indices : cluster :=
  mkCluster
    (fun q => if String.eqb q "SHOW TABLES" then Ok show_tables
              else Raise (ProgrammingError "parsing_exception"))
    (Reply [mkCatIndex "orders" (Some "5"); mkCatIndex "empty_idx" (Some "0")])
    (Reply "7.11.0") (fun _ => no_index) (fun _ => no_index).

(** Scenario A and its variants: [orders] maps [tags] as keyword, and the
    sampled document holds [sample] under [tags]; the list is object 0 of
    the store. *)
Definition tags_properties : list (string * field_mapping) :=
  [("tags", mkFieldMapping (Some (VStr "keyword")))].

Definition tags_source : list (key * val) := [(KStr "tags", VRef 0)].

Definition orders : cluster :=
  mkCluster
    (fun _ => Raise (ProgrammingError "parsing_exception"))
    (Reply [mkCatIndex "orders" (Some "1")])
    (Reply "7.11.0")
    (fun table_name =>
       if String.eqb table_name "orders"
       then Reply [("orders", mkIndexMapping (Some tags_properties))]
       else no_index)
    (fun table_name =>
       if String.eqb table_name "orders"
       then Reply (mkSearch 1 [mkHit (Some tags_source)])
       else no_index).

Definition sampled (sample : list val) : world :=
  mkWorld (mkCursor "http://localhost:9200/" false None []) [OList sample] [].

(** A row with one array of two structured objects, and its column. *)
Definition nested_store : store :=
  [ ODict [(KStr "sku", VStr "a1"); (KStr "qty", VInt 2)];
    ODict [(KStr "sku", VStr "b7"); (KStr "qty", VInt 1)];
    OList [VRef 0; VRef 1] ].

Definition nested_description : list CursorDescriptionRow :=
  [ mkDescriptionRow "id" STRING None None None None None;
    mkDescriptionRow "items" ARRAY None None None None None ].

Definition nested_row : list val := [VInt 7; VRef 2].



(** An index that is mapped and holds no document. *)
Definition empty_index : cluster :=
  mkCluster
    (fun _ => Raise (ProgrammingError "parsing_exception"))
    (Reply [mkCatIndex "empty_idx" (Some "0")])
    (Reply "7.11.0")
    (fun _ => Reply [("empty_idx", mkIndexMapping (Some tags_properties))])
    (fun _ => Reply (mkSearch 0 [])).

(** The cluster of scenario B when a request other than the SQL one is
    refused. *)
Definition refused {A} : reply A := Fails (EsConnectionError "refused").

Definition statistics_down : cluster :=
  mkCluster (sql two_indices) refused (Reply "7.11.0")
            (fun _ => no_index) (fun _ => no_index).

Definition info_down : cluster :=
  mkCluster (sql two_indices) (cat_indices two_indices) refused
            (fun _ => no_index) (fun _ => no_index).

Definition mapping_down : cluster :=
  mkCluster (sql orders) (cat_indices orders) (Reply "7.11.0")
            (fun _ => refused) (search orders).

(** [orders_alias] is an alias of [orders]: its mapping comes back under
    the name of the index. *)
Definition aliased : cluster :=
  mkCluster (sql orders) (cat_indices orders) (Reply "7.11.0")
            (fun _ => Reply [("orders", mkIndexMapping (Some tags_properties))])
            (search orders).

Definition tables_description : list CursorDescriptionRow :=
  get_description_from_columns_with_arrays
    [keyword "catalog"; keyword "name"; keyword "type"; keyword "kind"].

Definition tables_rows : list (list val) :=
  [ [VStr "es"; VStr "orders"; VStr "TABLE"; VStr "INDEX"];
    [VStr "es"; VStr "empty_idx"; VStr "TABLE"; VStr "INDEX"];
    [VStr "es"; VStr "recent"; VStr "VIEW"; VStr "ALIAS"] ].

Definition tables_statistics : list cat_index :=
  [mkCatIndex "orders" (Some "5"); mkCatIndex "empty_idx" (Some "0")].

(** One structured object, a list that holds it next to an integer, and a
    list that holds it alone. *)
Definition mixed_store : store :=
  [ ODict [(KStr "sku", VStr "a1")];
    OList [VRef 0; VInt 5];
    OList [VRef 0] ].

Definition array_description : list CursorDescriptionRow :=
  [ mkDescriptionRow "items" ARRAY None None None None None ].



End Scenario.

(** ** Vocabulary of the further properties *)

(** A list item that is None, a boolean or an integer. *)
Definition scalar_item (v : val) : bool :=
  match v with
  | VNone | VBool _ | VInt _ => true
  | _ => false
  end.




(** A row of two strings. *)
Definition entry_shape (row : list val) : Prop :=
  exists n ty, row = [VStr n; VStr ty].

(** The type of the last row of SHOW ARRAY_COLUMNS that names [n] and
    carries a type. *)
Definition last_type (n : string) (arr : list Dialect.array_row)
  : option string :=
  last (omap (fun a => if decide (Dialect.row_name a = n)
                       then Dialect.row_type a else None) arr).

(** The type [get_columns] gives to a row of SHOW COLUMNS. *)
Definition reflected_type {sqltype : Type} (get_type : string -> sqltype)
    (String_type : sqltype) (arr : list Dialect.array_row)
    (r : Dialect.columns_row) : Dialect.column_type sqltype :=
  if bool_decide (Dialect.row_column r ∈ map Dialect.row_name arr)
  then Dialect.ESArray match last_type (Dialect.row_column r) arr with
                       | Some t => get_type t
                       | None => String_type
                       end
  else Dialect.Plain (get_type (Dialect.row_mapping r)).

(** ** Vocabulary of the outcomes *)

(** Some call of [_process_array_value] on [v], made in a store between
    [h] and [h'], returned [v']. *)
Definition normalises_to (h h' : store) (v v' : val) : Prop :=
  exists hj hj',
    h `prefix_of` hj /\ hj' `prefix_of` h' /\
    _process_array_value hj v = Ok (v', hj').

(** Some call of [_process_array_value] on [v], made in a store that
    extends [h], raised [e]. *)
Definition normalisation_raises (h : store) (v : val) (e : exn) : Prop :=
  exists hj, h `prefix_of` hj /\ _process_array_value hj v = Raise e.

(** [v'] is what a returned tuple holds for the value [v] of position
    [j]: [v] itself outside the ARRAY columns, its normalisation in
    them. *)
Definition kept (description : option (list CursorDescriptionRow))
    (h h' : store) (j : nat) (v v' : val) : Prop :=
  match aligned description j with
  | Some d =>
      if ESType_eqb (type_code d) ARRAY then normalises_to h h' v v' else v' = v
  | None => False
  end.

(** Some ARRAY-typed position of [row] holds a value whose normalisation
    raises [e]. *)
Definition array_position_raises
    (description : option (list CursorDescriptionRow)) (h : store)
    (row : list val) (e : exn) : Prop :=
  exists j d v,
    aligned description j = Some d /\ type_code d = ARRAY /\
    row !! j = Some v /\ normalisation_raises h v e.


(** * Proofs *)

(** ** The store only grows *)

Lemma lookup_prefix (h h' : store) l :
  h `prefix_of` h' -> l < length h -> h' !! l = h !! l.
Proof.
  intros [k ->] Hl. by apply lookup_app_l.
Qed.

Lemma is_dict_bound h v : is_dict h v = true -> bound h v = true.
Proof.
  destruct v as [| | | |l]; simpl; try done.
  destruct (h !! l) as [o|] eqn:E; [|done].
  intros _. apply bool_decide_eq_true. by eapply lookup_lt_Some.
Qed.

Lemma is_dict_prefix h h' v :
  h `prefix_of` h' -> bound h v = true -> is_dict h' v = is_dict h v.
Proof.
  intros Hp. destruct v as [| | | |l]; simpl; try done.
  intros Hb%bool_decide_eq_true. by rewrite (lookup_prefix h h' l).
Qed.

Lemma bound_prefix h h' v :
  h `prefix_of` h' -> bound h v = true -> bound h' v = true.
Proof.
  intros Hp%prefix_length. destruct v as [| | | |l]; simpl; try done.
  intros Hb%bool_decide_eq_true. apply bool_decide_eq_true. lia.
Qed.

Lemma forallb_is_dict_prefix h h' items :
  h `prefix_of` h' ->
  forallb (is_dict h) items = true -> forallb (is_dict h') items = true.
Proof.
  intros Hp. induction items as [|x xs IH]; simpl; [done|].
  intros [Hx Hxs]%andb_true_iff. apply andb_true_iff. split; [|by apply IH].
  rewrite (is_dict_prefix h h'); auto using is_dict_bound.
Qed.

Lemma cell_ok_prefix h h' v :
  h `prefix_of` h' -> cell_ok h v = true -> cell_ok h' v = true.
Proof.
  intros Hp. destruct v as [| | | |l]; simpl; try done.
  destruct (h !! l) as [o|] eqn:E; [|done].
  rewrite (prefix_lookup_Some _ _ _ _ E Hp).
  destruct o as [[|first rest]|kvs]; try done.
  intros [Hb Hd]%andb_true_iff.
  apply andb_true_iff. split; [by eapply bound_prefix|].
  rewrite (is_dict_prefix h h') by done.
  apply orb_true_iff in Hd as [Hd|Hd]; apply orb_true_iff; [by left|right].
  by apply (forallb_is_dict_prefix h h').
Qed.

Lemma row_ok_prefix h h' row :
  h `prefix_of` h' -> row_ok h row = true -> row_ok h' row = true.
Proof.
  intros Hp. unfold row_ok. induction row as [|v row IH]; simpl; [done|].
  intros [Hv Hrow]%andb_true_iff. apply andb_true_iff.
  split; [by eapply cell_ok_prefix|by apply IH].
Qed.

(** ** Copies made by the Row Processor *)

Lemma dict_of_mapping h l kvs :
  h !! l = Some (ODict kvs) ->
  dict h (VRef l) = Ok (VRef (length h), h ++ [ODict kvs]).
Proof. intros E. simpl. by rewrite E. Qed.

Lemma copy_items_dicts items : forall h,
  forallb (is_dict h) items = true ->
  exists objs,
    copy_items h items
      = Ok (map VRef (seq (length h) (length items)), h ++ objs) /\
    length objs = length items /\
    forall j item, items !! j = Some item ->
      exists l kvs, item = VRef l /\ h !! l = Some (ODict kvs) /\
                    objs !! j = Some (ODict kvs).
Proof.
  induction items as [|item rest IH]; intros h Hall.
  - exists []. simpl. rewrite app_nil_r. repeat split; [done..|].
    intros j item Hj. by rewrite lookup_nil in Hj.
  - simpl in Hall. apply andb_true_iff in Hall as [Hitem Hrest].
    destruct item as [| | | |l]; simpl in Hitem; try done.
    destruct (h !! l) as [[xs|kvs]|] eqn:E; try done.
    destruct (IH (h ++ [ODict kvs])) as (objs & Hcopy & Hlen & Hobjs).
    { apply (forallb_is_dict_prefix h); [by apply prefix_app_r|done]. }
    exists (ODict kvs :: objs).
    cbn [copy_items]. rewrite (dict_of_mapping h l kvs E). cbn [rbind].
    rewrite Hcopy. cbn [rbind].
    rewrite length_app, Nat.add_1_r, <- app_assoc. simpl.
    repeat split; [by rewrite Hlen|].
    intros [|j] item Hj; simpl in Hj.
    + injection Hj as <-. by exists l, kvs.
    + destruct (Hobjs j item Hj) as (l' & kvs' & -> & Hl' & Ho).
      exists l', kvs'. repeat split; [|done].
      assert (is_dict h (VRef l') = true) as Hd.
      { eapply forallb_forall in Hrest; [exact Hrest|].
        apply list_elem_of_In. by eapply list_elem_of_lookup_2. }
      simpl in Hd. destruct (h !! l') as [o|] eqn:E'; [|done].
      rewrite (lookup_app_l_Some _ _ _ _ E') in Hl'. congruence.
Qed.



Lemma copied_grow h h' h'' item copy :
  h' `prefix_of` h'' -> copied h h' item copy -> copied h h'' item copy.
Proof.
  intros Hp (l & l' & kvs & -> & -> & Hl & Hl' & Hfresh).
  exists l, l', kvs. repeat split; try done.
  by eapply prefix_lookup_Some.
Qed.

Lemma copied_shrink h0 h h' item copy :
  h0 `prefix_of` h -> is_dict h0 item = true ->
  copied h h' item copy -> copied h0 h' item copy.
Proof.
  intros Hp Hd (l & l' & kvs & -> & -> & Hl & Hl' & Hfresh).
  exists l, l', kvs. repeat split; try done.
  - simpl in Hd. destruct (h0 !! l) as [o|] eqn:E; [|done].
    rewrite (prefix_lookup_Some _ _ _ _ E Hp) in Hl. congruence.
  - apply prefix_length in Hp. lia.
Qed.

Lemma Forall2_copied_shrink h0 h h' items copies :
  h0 `prefix_of` h -> forallb (is_dict h0) items = true ->
  Forall2 (copied h h') items copies -> Forall2 (copied h0 h') items copies.
Proof.
  intros Hp Hd Hall. revert Hd.
  induction Hall as [|item copy xs cs Hc Hall IH]; intros Hd; [constructor|].
  simpl in Hd. apply andb_true_iff in Hd as [Hitem Hitems].
  constructor; [by eapply copied_shrink|by apply IH].
Qed.

Lemma normalised_grow h h' h'' v v' :
  h' `prefix_of` h'' -> normalised h h' v v' -> normalised h h'' v v'.
Proof.
  intros Hp. unfold normalised.
  destruct v as [| | | |l]; try done.
  destruct (h !! l) as [[[|first rest]|kvs]|]; try done.
  destruct (is_dict h first); [|done].
  intros (l' & copies & -> & Hfresh & Hl' & Hall).
  exists l', copies. repeat split; try done.
  - by eapply prefix_lookup_Some.
  - eapply Forall2_impl; [exact Hall|]. intros. by eapply copied_grow.
Qed.

Lemma normalised_shrink h0 h h' v v' :
  h0 `prefix_of` h -> cell_ok h0 v = true ->
  normalised h h' v v' -> normalised h0 h' v v'.
Proof.
  intros Hp Hok. unfold normalised.
  destruct v as [| | | |l]; try done. simpl in Hok.
  destruct (h0 !! l) as [o|] eqn:E; [|done].
  rewrite (prefix_lookup_Some _ _ _ _ E Hp).
  destruct o as [[|first rest]|kvs]; try done.
  apply andb_true_iff in Hok as [Hb Hd].
  rewrite (is_dict_prefix h0 h) by done.
  destruct (is_dict h0 first) eqn:Hfirst; [|done].
  cbn [negb orb] in Hd.
  intros (l' & copies & -> & Hfresh & Hl' & Hall).
  exists l', copies. repeat split; try done.
  - apply prefix_length in Hp. lia.
  - by eapply Forall2_copied_shrink.
Qed.

Lemma _process_array_value_ok h v :
  cell_ok h v = true ->
  exists v' h', _process_array_value h v = Ok (v', h') /\
                h `prefix_of` h' /\ normalised h h' v v'.
Proof.
  intros Hok. unfold _process_array_value, normalised.
  destruct v as [| | | |l]; try (by eexists _, h).
  simpl in Hok. destruct (h !! l) as [[[|first rest]|kvs]|] eqn:E;
    try done; try (by eexists _, h).
  apply andb_true_iff in Hok as [Hb Hd].
  destruct (is_dict h first) eqn:Hfirst; [|by eexists _, h].
  cbn [negb orb] in Hd.
  destruct (copy_items_dicts (first :: rest) h Hd) as (objs & Hcopy & Hlen & Hobjs).
  rewrite Hcopy. cbn [rbind alloc].
  set (copies := map VRef (seq (length h) (length (first :: rest)))).
  exists (VRef (length (h ++ objs))), ((h ++ objs) ++ [OList copies]).
  split; [done|]. split.
  { rewrite <- app_assoc. by apply prefix_app_r. }
  exists (length (h ++ objs)), copies.
  split; [done|]. split; [rewrite length_app; lia|]. split.
  { by apply list_lookup_middle. }
  apply Forall2_same_length_lookup.
  split; [by unfold copies; rewrite length_map, length_seq|].
  intros j item copy Hitem Hcopyj.
  destruct (Hobjs j item Hitem) as (l0 & kvs & -> & Hl0 & Ho).
  unfold copies in Hcopyj. rewrite list_lookup_fmap in Hcopyj.
  destruct (seq _ _ !! j) as [n|] eqn:En; [|done]. injection Hcopyj as <-.
  apply lookup_seq in En as [-> Hj].
  exists l0, (length h + j), kvs. repeat split; try done; [|lia].
  rewrite <- app_assoc, lookup_app_r by lia.
  replace (length h + j - length h) with j by lia.
  by apply lookup_app_l_Some.
Qed.



Lemma aligned_Some description idx d :
  aligned description idx = Some d -> idx < description_length description.
Proof.
  destruct description as [ds|]; simpl; [|done]. apply lookup_lt_Some.
Qed.

Lemma aligned_None description idx :
  aligned description idx = None -> description_length description <= idx.
Proof.
  destruct description as [ds|]; simpl; [|lia]. apply lookup_ge_None_1.
Qed.

Lemma processed_shrink description h0 h h' out idx j v :
  h0 `prefix_of` h -> cell_ok h0 v = true ->
  processed description h h' out idx j v ->
  processed description h0 h' out idx j v.
Proof.
  intros Hp Hok. unfold processed.
  destruct (aligned description (idx + j)) as [d|]; [|done].
  intros (v' & Hv' & Hrel). exists v'. split; [done|].
  destruct (ESType_eqb (type_code d) ARRAY); [|done].
  by eapply normalised_shrink.
Qed.

Lemma process_from_ok description row : forall idx h,
  row_ok h row = true ->
  exists out h',
    process_from description idx row h = Ok (out, h') /\
    h `prefix_of` h' /\
    length out = Nat.min (length row) (description_length description - idx) /\
    forall j v, row !! j = Some v -> processed description h h' out idx j v.
Proof.
  induction row as [|value rest IH]; intros idx h Hok.
  { exists [], h. repeat split; [done..|]. intros j v Hj. by rewrite lookup_nil in Hj. }
  apply andb_true_iff in Hok as [Hvalue Hrest].
  cbn [process_from].
  destruct (aligned description idx) as [d|] eqn:Hd.
  - apply aligned_Some in Hd as Hlt.
    destruct (ESType_eqb (type_code d) ARRAY) eqn:Harray.
    + destruct (_process_array_value_ok h value Hvalue) as (v' & h1 & -> & Hp1 & Hn).
      destruct (IH (S idx) h1) as (vs & h2 & Hvs & Hp2 & Hlen & Hpos).
      { by eapply row_ok_prefix. }
      cbn [rbind]. rewrite Hvs. cbn [rbind]. exists (v' :: vs), h2. split; [done|].
      split; [by trans h1|]. split; [cbn [length]; lia|].
      intros [|j] v Hj; simpl in Hj.
      * injection Hj as <-. unfold processed.
        rewrite Nat.add_0_r, Hd, Harray. exists v'. split; [done|].
        by eapply normalised_grow.
      * assert (cell_ok h v = true) as Hv.
        { eapply forallb_forall in Hrest; [exact Hrest|].
          apply list_elem_of_In. by eapply list_elem_of_lookup_2. }
        specialize (Hpos j v Hj). apply (processed_shrink _ h h1) in Hpos; [|done..].
        unfold processed in *. replace (idx + S j) with (S idx + j) by lia.
        destruct (aligned description (S idx + j)); simpl; done.
    + destruct (IH (S idx) h Hrest) as (vs & h2 & Hvs & Hp2 & Hlen & Hpos).
      rewrite Hvs. cbn [rbind]. exists (value :: vs), h2. split; [done|].
      split; [done|]. split; [cbn [length]; lia|].
      intros [|j] v Hj; simpl in Hj.
      * injection Hj as <-. unfold processed.
        rewrite Nat.add_0_r, Hd, Harray. by exists value.
      * specialize (Hpos j v Hj).
        unfold processed in *. replace (idx + S j) with (S idx + j) by lia.
        destruct (aligned description (S idx + j)); simpl; done.
  - apply aligned_None in Hd as Hge.
    destruct (IH (S idx) h Hrest) as (vs & h2 & -> & Hp2 & Hlen & Hpos).
    exists vs, h2. split; [done|]. split; [done|].
    assert (vs = []) as -> by (apply length_zero_iff_nil; lia).
    split; [cbn [length]; lia|].
    intros j v Hj. unfold processed.
    destruct (aligned description (idx + j)) as [d|] eqn:Hd'; [|done].
    apply aligned_Some in Hd'. lia.
Qed.

(** Whatever the row, a returned tuple has one value per aligned position
    and the values outside ARRAY columns are those of the row. *)
Lemma process_from_shape description row : forall idx h out h',
  process_from description idx row h = Ok (out, h') ->
  length out = Nat.min (length row) (description_length description - idx) /\
  forall j d, aligned description (idx + j) = Some d ->
    ESType_eqb (type_code d) ARRAY = false -> out !! j = row !! j.
Proof.
  induction row as [|value rest IH]; intros idx h out h' Hrun.
  { injection Hrun as <- <-. split; [done|]. intros. by rewrite !lookup_nil. }
  cbn [process_from] in Hrun.
  destruct (aligned description idx) as [d|] eqn:Hd.
  - apply aligned_Some in Hd as Hlt.
    destruct (ESType_eqb (type_code d) ARRAY) eqn:Harray.
    + destruct (_process_array_value h value) as [[v' h1]|] eqn:Hv; [|done].
      cbn [rbind] in Hrun.
      destruct (process_from description (S idx) rest h1) as [[vs h2]|] eqn:Hvs;
        [|done].
      injection Hrun as <- <-.
      destruct (IH _ _ _ _ Hvs) as [Hlen Hpos]. split; [cbn [length]; lia|].
      intros [|j] d' Hd' Hscalar.
      * rewrite Nat.add_0_r in Hd'. congruence.
      * simpl. apply (Hpos j d'); [|done].
        by replace (S idx + j) with (idx + S j) by lia.
    + destruct (process_from description (S idx) rest h) as [[vs h2]|] eqn:Hvs;
        [|done].
      injection Hrun as <- <-.
      destruct (IH _ _ _ _ Hvs) as [Hlen Hpos]. split; [cbn [length]; lia|].
      intros [|j] d' Hd' Hscalar; [done|].
      simpl. apply (Hpos j d'); [|done].
      by replace (S idx + j) with (idx + S j) by lia.
  - apply aligned_None in Hd as Hge.
    destruct (IH _ _ _ _ Hrun) as [Hlen Hpos]. split; [cbn [length]; lia|].
    intros j d' Hd'. apply aligned_Some in Hd'. lia.
Qed.



Lemma rows_ok_prefix h h' rows :
  h `prefix_of` h' -> rows_ok h rows = true -> rows_ok h' rows = true.
Proof.
  intros Hp. unfold rows_ok. induction rows as [|r rows IH]; simpl; [done|].
  intros [Hr Hrows]%andb_true_iff. apply andb_true_iff.
  split; [by eapply row_ok_prefix|by apply IH].
Qed.

(** Processing the rows of a response touches the store only, and each row
    is cut to the description the cursor held before the call. *)
Lemma process_rows_ok rows : forall w,
  rows_ok (objects w) rows = true ->
  exists out h',
    mapM self_process_row rows w = (Ok out, mkWorld (self w) h' (calls w)) /\
    objects w `prefix_of` h' /\
    Forall2 (fun row o =>
               length o = Nat.min (length row)
                                  (description_length (description (self w))))
            rows out.
Proof.
  induction rows as [|row rows IH]; intros w Hok.
  { exists [], (objects w). destruct w. by repeat split. }
  apply andb_true_iff in Hok as [Hrow Hrows].
  destruct (process_from_ok (description (self w)) row 0 (objects w) Hrow)
    as (o & h1 & Hrun & Hp1 & Hlen & _).
  destruct (IH (mkWorld (self w) h1 (calls w))) as (os & h2 & Hruns & Hp2 & Hall).
  { by eapply rows_ok_prefix. }
  exists (o :: os), h2.
  cbn [mapM]. unfold bind at 1. unfold self_process_row at 1.
  unfold bind at 1, get_self, on_store, _process_row. rewrite Hrun.
  unfold bind at 1. rewrite Hruns. simpl.
  split; [done|]. split; [by trans h1|].
  constructor; [by rewrite Hlen, Nat.sub_0_r|done].
Qed.

Section Execute.
Context {libraries : Libraries}.


Lemma execute_sql_missing_columns cl operation parameters w query results :
  apply_parameters operation parameters = Ok query ->
  sql cl query = Ok results ->
  columns_of results = None ->
  rows_ok (objects w) (default [] (resp_rows results)) = true ->
  exists w',
    execute_sql cl operation parameters w
      = (Raise (DataError "Missing columns field, maybe it's an opendistro sql ep"),
         w') /\
    self w' = self w /\ calls w' = calls w ++ [CallSql query].
Proof.
  intros Hq Hres Hcols Hok.
  unfold execute_sql, bind at 1, lift. rewrite Hq.
  unfold bind at 1, elastic_query. rewrite Hres.
  set (w1 := mkWorld (self w) (objects w) (calls w ++ [CallSql query])).
  destruct (process_rows_ok (default [] (resp_rows results)) w1 Hok)
    as (out & h' & Hrun & _ & _).
  unfold bind at 1. rewrite Hrun, Hcols. unfold raise.
  eexists. split; [done|]. done.
Qed.

End Execute.




Lemma field_array_columns_spec h source f fm :
  sampled_sequence h source f <> Some [] \/ string_typed fm = false ->
  exists es,
    field_array_columns h source f fm = Ok es /\
    (es <> [] <->
       string_typed fm = true /\
       exists first rest,
         sampled_sequence h source f = Some (first :: rest) /\
         keyless h first = false).
Proof.
  unfold field_array_columns, sampled_sequence, string_typed.
  destruct (fm_type fm) as [[| | |ty|]|];
    try (intros _; exists []; split; [done|]; split; [done|by intros [? _]]).
  intros [Hne|?]; [|done].
  destruct (dict_get source (KStr f)) as [[| | | |l]|];
    try (exists []; split; [done|]; split; [done|by intros (_ & ? & ? & ? & _)]).
  destruct (h !! l) as [[[|first rest]|kvs]|] eqn:E;
    try done;
    try (exists []; split; [done|]; split; [done|by intros (_ & ? & ? & ? & _)]).
  assert (forall es : list (list val),
            es <> [] ->
            keyless h first = false ->
            es <> [] <->
            true = true /\
            exists first0 rest0,
              Some (first :: rest) = Some (first0 :: rest0) /\
              keyless h first0 = false) as Hyes.
  { intros es Hes Hk. split; [|done]. intros _. split; [done|]. by exists first, rest. }
  destruct first as [| | | |l0]; try (eexists; split; [done|]; by apply Hyes).
  simpl. destruct (h !! l0) as [[xs|kvs]|] eqn:E0;
    try (eexists; split; [done|]; apply Hyes; [done|simpl; by rewrite E0]).
  eexists. split; [done|].
  destruct kvs as [|kv kvs].
  - simpl. split; [done|]. intros (_ & first0 & rest0 & [= <- <-] & Hk).
    simpl in Hk. by rewrite E0 in Hk.
  - apply Hyes; [done|]. simpl. by rewrite E0.
Qed.

Section Dispatch.
Context {libraries : Libraries}.

(** On an open cursor [execute] runs the method its statement is
    classified to. *)
Lemma execute_by_class cl operation parameters w :
  closed (self w) = false ->
  execute cl operation parameters w =
    match classify operation with
    | ValidTables =>
        (get_valid_table_names (fun op => execute_at 1 cl op None) cl ;;; ret tt) w
    | ValidViews =>
        (get_valid_view_names (fun op => execute_at 1 cl op None) cl ;;; ret tt) w
    | ArrayColumns table_name => get_array_type_columns cl table_name w
    | RealSql => execute_sql cl operation parameters w
    end.
Proof.
  intros Hopen. unfold execute. cbn [execute_at].
  unfold bind at 1, check_closed. rewrite Hopen.
  unfold classify, custom_sql_to_method_dispatcher.
  destruct (assoc (lower operation) custom_sql_to_method) as [[]|].
  - unfold bind. by destruct (get_valid_table_names _ cl w) as [[[]|e] w'].
  - unfold bind. by destruct (get_valid_view_names _ cl w) as [[[]|e] w'].
  - unfold bind at 1, ret. by destruct (re_table_name operation).
Qed.

(** The statement run by the listing methods is a real SQL statement. *)
Lemma classify_show_tables : classify "SHOW TABLES" = RealSql.
Proof. reflexivity. Qed.

Lemma classify_valid_tables operation :
  lower operation = "show valid_tables" -> classify operation = ValidTables.
Proof. intros E. unfold classify. by rewrite E. Qed.

Lemma classify_valid_views operation :
  lower operation = "show valid_views" -> classify operation = ValidViews.
Proof. intros E. unfold classify. by rewrite E. Qed.

Lemma classify_array_columns table_name :
  classify ("SHOW ARRAY_COLUMNS FROM " ++ table_name)
    = ArrayColumns (first_line table_name).
Proof. reflexivity. Qed.

(** Two nested calls are all [execute] ever makes. *)
Lemma execute_at_enough n cl operation parameters :
  execute_at (2 + n) cl operation parameters = execute cl operation parameters.
Proof. reflexivity. Qed.

(** The pattern of the third statement is matched as it is written. *)
Lemma classify_lowercase_array_columns table_name :
  classify ("show array_columns from " ++ table_name) = RealSql.
Proof. reflexivity. Qed.

(** A real SQL statement with a non-empty columns field: the description
    is built from the columns, and every published row was cut to the
    description the cursor held before the call. *)
Lemma execute_sql_publishes cl operation parameters w query results columns :
  apply_parameters operation parameters = Ok query ->
  sql cl query = Ok results ->
  columns_of results = Some columns ->
  rows_ok (objects w) (default [] (resp_rows results)) = true ->
  exists w',
    execute_sql cl operation parameters w = (Ok tt, w') /\
    description (self w')
      = Some (get_description_from_columns_with_arrays columns) /\
    Forall2 (fun row o =>
               length o = Nat.min (length row)
                                  (description_length (description (self w))))
            (default [] (resp_rows results)) (_results (self w')).
Proof.
  intros Hq Hres Hcols Hok.
  unfold execute_sql, bind at 1, lift. rewrite Hq.
  unfold bind at 1, elastic_query. rewrite Hres.
  set (w1 := mkWorld (self w) (objects w) (calls w ++ [CallSql query])).
  destruct (process_rows_ok (default [] (resp_rows results)) w1 Hok)
    as (out & h' & Hrun & _ & Hall).
  unfold bind at 1. rewrite Hrun, Hcols.
  eexists. split; [reflexivity|]. by split.
Qed.

End Dispatch.

(** * The claims *)

Lemma ESType_eqb_ARRAY t : ESType_eqb t ARRAY = true <-> t = ARRAY.
Proof. by destruct t. Qed.

Lemma ESType_eqb_not_ARRAY t : t <> ARRAY -> ESType_eqb t ARRAY = false.
Proof. by destruct t. Qed.

(** ** Every outcome of the Row Processor *)

Lemma normalises_to_shrink h0 h h' v v' :
  h0 `prefix_of` h -> normalises_to h h' v v' -> normalises_to h0 h' v v'.
Proof.
  intros Hp (hj & hj' & Hj & Hj' & Hrun). exists hj, hj'.
  split; [by trans h|done].
Qed.

Lemma normalisation_raises_shrink h0 h v e :
  h0 `prefix_of` h -> normalisation_raises h v e -> normalisation_raises h0 v e.
Proof.
  intros Hp (hj & Hj & Hrun). exists hj. split; [by trans h|done].
Qed.

Lemma kept_shrink description h0 h h' j v v' :
  h0 `prefix_of` h -> kept description h h' j v v' -> kept description h0 h' j v v'.
Proof.
  intros Hp. unfold kept. destruct (aligned description j) as [d|]; [|done].
  destruct (ESType_eqb (type_code d) ARRAY); [|done].
  by apply normalises_to_shrink.
Qed.

Lemma _process_array_value_prefix h v v' h' :
  _process_array_value h v = Ok (v', h') -> h `prefix_of` h'.
Proof.
  unfold _process_array_value.
  destruct v as [| | | |l]; try (by intros [= <- <-]).
  destruct (h !! l) as [[[|first rest]|kvs]|]; try (by intros [= <- <-]).
  destruct (is_dict h first); [|by intros [= <- <-]].
  destruct (copy_items h (first :: rest)) as [[copies h1]|] eqn:Hc; [|done].
  intros [= <- <-]. trans h1; [|by apply prefix_app_r].
  clear -Hc. revert h copies h1 Hc. generalize (first :: rest).
  induction l as [|item items IH]; intros h copies h1 Hc.
  { by injection Hc as <- <-. }
  cbn [copy_items] in Hc.
  destruct (dict h item) as [[c h2]|] eqn:Hd; [|done]. cbn [rbind] in Hc.
  destruct (copy_items h2 items) as [[cs h3]|] eqn:Hcs; [|done].
  injection Hc as <- <-. trans h2; [|by eapply IH].
  clear -Hd. unfold dict in Hd. destruct item as [| | |s|l]; try done.
  - destruct s; [|done]. injection Hd as <- <-. by apply prefix_app_r.
  - destruct (h !! l) as [[xs|kvs]|]; [| |done].
    + destruct (dict_of_pairs h [] xs); [|done].
      injection Hd as <- <-. by apply prefix_app_r.
    + injection Hd as <- <-. by apply prefix_app_r.
Qed.

(** What the loop of [_process_row] does from position [idx] on, whatever
    the row. *)
Lemma process_from_result description row : forall idx h,
  match process_from description idx row h with
  | Ok (out, h') =>
      h `prefix_of` h' /\
      length out = Nat.min (length row) (description_length description - idx) /\
      forall j v', out !! j = Some v' ->
        exists v, row !! j = Some v /\ kept description h h' (idx + j) v v'
  | Raise e =>
      exists j d v,
        aligned description (idx + j) = Some d /\ type_code d = ARRAY /\
        row !! j = Some v /\ normalisation_raises h v e
  end.
Proof.
  induction row as [|value rest IH]; intros idx h.
  { cbn. repeat split; [done|]. intros j v' Hj. by rewrite lookup_nil in Hj. }
  cbn [process_from].
  destruct (aligned description idx) as [d|] eqn:Hd.
  - apply aligned_Some in Hd as Hlt.
    destruct (ESType_eqb (type_code d) ARRAY) eqn:Harray.
    + destruct (_process_array_value h value) as [[v1 h1]|e] eqn:Hv; cbn [rbind].
      * apply _process_array_value_prefix in Hv as Hp1.
        specialize (IH (S idx) h1).
        destruct (process_from description (S idx) rest h1) as [[vs h2]|e];
          cbn [rbind].
        -- destruct IH as (Hp2 & Hlen & Hpos).
           split; [by trans h1|]. split; [cbn [length]; lia|].
           intros [|j] v' Hj; simpl in Hj.
           ++ injection Hj as <-. exists value. split; [done|].
              unfold kept. rewrite Nat.add_0_r, Hd, Harray.
              by exists h, h1.
           ++ destruct (Hpos j v' Hj) as (v & Hv' & Hk). exists v. split; [done|].
              replace (idx + S j) with (S idx + j) by lia.
              by eapply kept_shrink.
        -- destruct IH as (j & d' & v & Hd' & Ha & Hj & Hr).
           exists (S j), d', v. replace (idx + S j) with (S idx + j) by lia.
           repeat split; try done. by eapply normalisation_raises_shrink.
      * exists 0, d, value. rewrite Nat.add_0_r. repeat split; try done.
        { by apply ESType_eqb_ARRAY. }
        by exists h.
    + specialize (IH (S idx) h).
      destruct (process_from description (S idx) rest h) as [[vs h2]|e];
        cbn [rbind].
      * destruct IH as (Hp2 & Hlen & Hpos).
        split; [done|]. split; [cbn [length]; lia|].
        intros [|j] v' Hj; simpl in Hj.
        -- injection Hj as <-. exists value. split; [done|].
           unfold kept. by rewrite Nat.add_0_r, Hd, Harray.
        -- destruct (Hpos j v' Hj) as (v & Hv' & Hk). exists v. split; [done|].
           by replace (idx + S j) with (S idx + j) by lia.
      * destruct IH as (j & d' & v & Hd' & Ha & Hj & Hr).
        exists (S j), d', v. replace (idx + S j) with (S idx + j) by lia.
        by repeat split.
  - apply aligned_None in Hd as Hge.
    specialize (IH (S idx) h).
    destruct (process_from description (S idx) rest h) as [[vs h2]|e].
    + destruct IH as (Hp2 & Hlen & Hpos).
      assert (vs = []) as -> by (apply length_zero_iff_nil; lia).
      split; [done|]. split; [cbn [length]; lia|].
      intros j v' Hj. by rewrite lookup_nil in Hj.
    + destruct IH as (j & d' & v & Hd' & Ha & Hj & Hr).
      exists (S j), d', v. replace (idx + S j) with (S idx + j) by lia.
      by repeat split.
Qed.


(** ** Row Processor *)

(** C7. For a row and a description of equal length, every tuple that
    [_process_row] returns has the length of the row and holds, at every
    position whose type_code is not ARRAY, the value of the row
    unchanged; the row is any row. *)
Theorem process_row_identity (ds : list CursorDescriptionRow)
    (row out : list val) (h h' : store)
    (Hlen : length row = length ds)
    (Hrun : _process_row (Some ds) row h = Ok (out, h')) :
  length out = length row /\
  forall j d, ds !! j = Some d -> type_code d <> ARRAY ->
              out !! j = row !! j.
Proof.
  destruct (process_from_shape _ _ _ _ _ _ Hrun) as [Hsize Hpos].
  split; [simpl in Hsize; lia|].
  intros j d Hd Hscalar. apply (Hpos j d); [exact Hd|].
  by apply ESType_eqb_not_ARRAY.
Qed.

Lemma process_row_identity_witness :
  length [VRef 1; VRef 4] = length [VRef 1; VRef 2] /\
  forall j d, Scenario.nested_description !! j = Some d ->
              type_code d <> ARRAY ->
              [VRef 1; VRef 4] !! j = [VRef 1; VRef 2] !! j.
Proof.
  apply (process_row_identity Scenario.nested_description
           [VRef 1; VRef 2] [VRef 1; VRef 4] Scenario.mixed_store
           (Scenario.mixed_store
            ++ [ODict [(KStr "sku", VStr "a1")]; OList [VRef 3]]));
    reflexivity.
Defined.

Lemma process_from_unset description row : forall idx h,
  description_length description <= idx ->
  process_from description idx row h = Ok ([], h).
Proof.
  induction row as [|value rest IH]; intros idx h Hge; [done|].
  cbn [process_from].
  destruct (aligned description idx) as [d|] eqn:Hd.
  - apply aligned_Some in Hd. lia.
  - apply IH. lia.
Qed.

(** C10, as stated, fails: under an ARRAY column, a list that holds a
    structured object and then an integer makes [_process_row] raise
    TypeError, so that no tuple is returned. *)
Lemma process_row_mixed_list_raises :
  _process_row (Some Scenario.array_description) [VRef 1] Scenario.mixed_store
  = Raise TypeError.
Proof. reflexivity. Qed.

(** C10, amended. For every row, [_process_row] either raises the
    exception that the normalisation of a value at an ARRAY-typed position
    raised, or returns a tuple whose length is the minimum of the length of
    the row and the length of the current description and whose value at
    each position comes from the same position of the row (unchanged
    outside the ARRAY columns, normalised in them): the values beyond the
    description are dropped.  Without a description (none, or an empty
    one) it returns the empty tuple, whatever the row. *)
Theorem process_row_length (description : option (list CursorDescriptionRow))
    (row : list val) (h : store) :
  match _process_row description row h with
  | Ok (out, h') =>
      length out = Nat.min (length row) (description_length description) /\
      forall j v', out !! j = Some v' ->
        exists v, row !! j = Some v /\ kept description h h' j v v'
  | Raise e => array_position_raises description h row e
  end /\
  match description with
  | None | Some [] => _process_row description row h = Ok ([], h)
  | Some (_ :: _) => True
  end.
Proof.
  pose proof (process_from_result description row 0 h) as Hrow.
  unfold _process_row. split.
  - destruct (process_from description 0 row h) as [[out h']|e].
    + destruct Hrow as (_ & Hlen & Hpos). rewrite Nat.sub_0_r in Hlen.
      split; [exact Hlen|exact Hpos].
    + exact Hrow.
  - destruct description as [[|d ds]|]; [|done|];
      apply process_from_unset; simpl; lia.
Qed.

Lemma process_row_length_witness :
  match _process_row (Some Scenario.nested_description)
                     (Scenario.nested_row ++ [VStr "dropped"])
                     Scenario.nested_store with
  | Ok (out, h') =>
      length out = Nat.min 3 2 /\
      forall j v', out !! j = Some v' ->
        exists v, (Scenario.nested_row ++ [VStr "dropped"]) !! j = Some v /\
                  kept (Some Scenario.nested_description)
                       Scenario.nested_store h' j v v'
  | Raise e =>
      array_position_raises (Some Scenario.nested_description)
        Scenario.nested_store (Scenario.nested_row ++ [VStr "dropped"]) e
  end /\
  True.
Proof.
  exact (process_row_length (Some Scenario.nested_description)
           (Scenario.nested_row ++ [VStr "dropped"]) Scenario.nested_store).
Defined.

(** C6. At a position whose column is ARRAY and whose value is a list of
    structured objects, every tuple that [_process_row] returns holds a
    list of the same length; its elements are new objects with the keys and
    values of the corresponding elements of the input, and assigning to a
    key of an element of the output changes that element and leaves the
    element of the input as it was.  The other values of the row are
    any. *)
Theorem process_row_copies (description : option (list CursorDescriptionRow))
    (row out : list val) (h h' : store) (i : nat) (d : CursorDescriptionRow)
    (l : loc) (items : list val)
    (Hrun : _process_row description row h = Ok (out, h'))
    (Hd : aligned description i = Some d)
    (Harray : type_code d = ARRAY)
    (Hvalue : row !! i = Some (VRef l))
    (Hlist : h !! l = Some (OList items))
    (Hitems : forallb (is_dict h) items = true) :
  exists l' copies,
    out !! i = Some (VRef l') /\
    h' !! l' = Some (OList copies) /\
    length copies = length items /\
    Forall2 (copied h h') items copies /\
    forall j item copy k x,
      items !! j = Some item -> copies !! j = Some copy ->
      exists li lc kvs,
        item = VRef li /\ copy = VRef lc /\ li <> lc /\
        h !! li = Some (ODict kvs) /\
        setitem h' copy k x !! lc = Some (ODict (dict_set kvs k x)) /\
        setitem h' copy k x !! li = Some (ODict kvs).
Proof.
  pose proof (process_from_result description row 0 h) as Hrow.
  unfold _process_row in Hrun. rewrite Hrun in Hrow.
  destruct Hrow as (Hp & Hlen & Hpos). rewrite Nat.sub_0_r in Hlen.
  assert (i < length out) as Hi.
  { apply lookup_lt_Some in Hvalue. apply aligned_Some in Hd. lia. }
  apply lookup_lt_is_Some_2 in Hi as [v' Hout].
  destruct (Hpos i v' Hout) as (v & Hv & Hk). rewrite Hvalue in Hv.
  injection Hv as <-. unfold kept in Hk. rewrite Nat.add_0_l, Hd, Harray in Hk.
  cbn [ESType_eqb] in Hk. destruct Hk as (hj & hj' & Hj & Hj' & Hcall).
  assert (cell_ok h (VRef l) = true) as Hok.
  { simpl. rewrite Hlist. destruct items as [|first rest]; [done|].
    assert (is_dict h first = true) as Hfirst.
    { simpl in Hitems. by apply andb_true_iff in Hitems as [? _]. }
    apply andb_true_iff. split; [by apply is_dict_bound|].
    apply orb_true_iff. by right. }
  destruct (_process_array_value_ok hj (VRef l)) as (v2 & h2 & Hcall2 & _ & Hn).
  { by eapply cell_ok_prefix. }
  rewrite Hcall in Hcall2. injection Hcall2 as <- <-.
  apply (normalised_shrink h hj hj') in Hn; [|done..].
  apply (normalised_grow h hj' h') in Hn; [|done].
  unfold normalised in Hn. rewrite Hlist in Hn.
  assert (exists l' copies,
             v' = VRef l' /\ h' !! l' = Some (OList copies) /\
             Forall2 (copied h h') items copies) as (l' & copies & -> & Hl' & Hall).
  { destruct items as [|first rest].
    - subst v'. exists l, []. repeat split; [|constructor].
      by eapply prefix_lookup_Some.
    - simpl in Hitems. apply andb_true_iff in Hitems as [Hfirst _].
      rewrite Hfirst in Hn. destruct Hn as (l' & copies & -> & _ & Hl' & Hall).
      by exists l', copies. }
  exists l', copies.
  split; [exact Hout|]. split; [exact Hl'|].
  split; [symmetry; by eapply Forall2_length|]. split; [exact Hall|].
  intros j item copy k x Hitem Hcopy.
  destruct (Forall2_lookup_lr _ _ _ _ _ _ Hall Hitem Hcopy)
    as (li & lc & kvs & -> & -> & Hli & Hlc & Hfresh).
  assert (li < length h) as Hbound by (by eapply lookup_lt_Some).
  assert (li <> lc) as Hne by lia.
  exists li, lc, kvs. repeat split; try done.
  - simpl. rewrite Hlc. apply list_lookup_insert_eq. by eapply lookup_lt_Some.
  - simpl. rewrite Hlc. rewrite list_lookup_insert_ne by done.
    by eapply prefix_lookup_Some.
Qed.

Lemma process_row_copies_witness :
  exists l' copies,
    [VRef 1; VRef 4] !! 1 = Some (VRef l') /\
    (Scenario.mixed_store
     ++ [ODict [(KStr "sku", VStr "a1")]; OList [VRef 3]]) !! l'
      = Some (OList copies) /\
    length copies = 1 /\
    Forall2 (copied Scenario.mixed_store
               (Scenario.mixed_store
                ++ [ODict [(KStr "sku", VStr "a1")]; OList [VRef 3]]))
            [VRef 0] copies /\
    forall j item copy k x,
      [VRef 0] !! j = Some item -> copies !! j = Some copy ->
      exists li lc kvs,
        item = VRef li /\ copy = VRef lc /\ li <> lc /\
        Scenario.mixed_store !! li = Some (ODict kvs) /\
        setitem (Scenario.mixed_store
                 ++ [ODict [(KStr "sku", VStr "a1")]; OList [VRef 3]])
                copy k x !! lc = Some (ODict (dict_set kvs k x)) /\
        setitem (Scenario.mixed_store
                 ++ [ODict [(KStr "sku", VStr "a1")]; OList [VRef 3]])
                copy k x !! li = Some (ODict kvs).
Proof.
  apply (process_row_copies (Some Scenario.nested_description)
           [VRef 1; VRef 2] [VRef 1; VRef 4] Scenario.mixed_store
           (Scenario.mixed_store
            ++ [ODict [(KStr "sku", VStr "a1")]; OList [VRef 3]])
           1 (mkDescriptionRow "items" ARRAY None None None None None) 2
           [VRef 0]); reflexivity.
Defined.

(** ** Type Mapper *)

Lemma startswith_app p s : startswith p (p ++ s) = true.
Proof.
  induction p as [|a p IH]; simpl; [done|].
  by rewrite Ascii.eqb_refl, IH.
Qed.

Lemma startswith_split p : forall s,
  startswith p s = true -> exists post, s = (p ++ post)%string.
Proof.
  induction p as [|a p IH]; intros s Hs; simpl in *; [by exists s|].
  destruct s as [|b s]; [done|].
  apply andb_true_iff in Hs as [Hab Hs].
  apply Ascii.eqb_eq in Hab as ->. destruct (IH s Hs) as [post ->].
  by exists post.
Qed.

(** [contains] is the substring test. *)
Lemma contains_spec needle hay :
  contains needle hay = true <->
  exists pre post, hay = (pre ++ needle ++ post)%string.
Proof.
  split.
  - induction hay as [|c hay IH]; simpl.
    + rewrite orb_false_r. intros [post ->]%startswith_split. by exists "", post.
    + intros [Hs|Hc]%orb_true_iff.
      * apply startswith_split in Hs as [post ->]. by exists "", post.
      * destruct (IH Hc) as (pre & post & ->). by exists (String c pre), post.
  - intros (pre & post & ->).
    induction pre as [|c pre IH]; simpl.
    + assert (startswith needle (needle ++ post) = true) as Hs
        by apply startswith_app.
      destruct (needle ++ post)%string; simpl; by rewrite Hs.
    + rewrite IH. apply orb_true_r.
Qed.

(** C9. Whatever the raw type, the Type Mapper answers ARRAY when the
    array flag is set; so every column whose raw type contains array, in
    any casing, is described with type_code ARRAY. *)
Theorem from_es_type_array (columns : list column) (c : column)
    (Hc : In c columns)
    (Harray : contains "array" (lower (default "" (col_type c))) = true) :
  (forall es_type, from_es_type es_type true = ARRAY) /\
  exists d,
    In d (get_description_from_columns_with_arrays columns) /\
    name d = default "" (col_name c) /\
    type_code d = ARRAY.
Proof.
  split; [done|].
  eexists. split.
  - unfold get_description_from_columns_with_arrays. apply in_map_iff.
    exists c. split; [reflexivity|exact Hc].
  - simpl. by rewrite Harray.
Qed.

Lemma from_es_type_array_witness :
  (forall es_type, from_es_type es_type true = ARRAY) /\
  exists d,
    In d (get_description_from_columns_with_arrays
            [mkColumn (Some "tags") (Some "Keyword_ARRAY")]) /\
    name d = "tags" /\
    type_code d = ARRAY.
Proof.
  apply (from_es_type_array [mkColumn (Some "tags") (Some "Keyword_ARRAY")]
                            (mkColumn (Some "tags") (Some "Keyword_ARRAY")));
    [simpl; by left|reflexivity].
Defined.

(** ** Cursor *)


Section CursorClaims.
Context {libraries : Libraries}.


End CursorClaims.


(** ** Array Detector *)

(** C8. When the index is mapped and its sample holds no document,
    [get_array_type_columns] succeeds and publishes no row, under the
    two-column description. *)
Theorem detect_zero_documents (cl : cluster) (table_name : string) (w : world)
    (mapping : list (string * index_mapping)) (im : index_mapping)
    (response : search_response)
    (Hmapping : indices_get_mapping cl table_name = Reply mapping)
    (Hindex : assoc table_name mapping = Some im)
    (Hsearch : search cl table_name = Reply response)
    (Hzero : total_value response = 0%Z) :
  exists w',
    get_array_type_columns cl table_name w = (Ok tt, w') /\
    _results (self w') = [] /\
    description (self w')
      = Some [ mkDescriptionRow "name" STRING None None None None None;
               mkDescriptionRow "type" STRING None None None None None ] /\
    objects w' = objects w.
Proof.
  eexists.
  cbv [get_array_type_columns bind get_self try_except request lift ret
       set_description set_results].
  rewrite Hmapping, Hindex, Hsearch, Hzero. cbn.
  by repeat split.
Qed.

Lemma detect_zero_documents_witness :
  exists w',
    get_array_type_columns Scenario.empty_index "empty_idx" Scenario.fresh
      = (Ok tt, w') /\
    _results (self w') = [] /\
    description (self w')
      = Some [ mkDescriptionRow "name" STRING None None None None None;
               mkDescriptionRow "type" STRING None None None None None ] /\
    objects w' = [].
Proof.
  apply (detect_zero_documents Scenario.empty_index "empty_idx" Scenario.fresh
           [("empty_idx", mkIndexMapping (Some Scenario.tags_properties))]
           (mkIndexMapping (Some Scenario.tags_properties))
           (mkSearch 0 [])); reflexivity.
Defined.






(** Scenario A: [tags], mapped as keyword and sampled as a sequence of two
    strings, is reported once. *)
Example scenario_a :
  exists w',
    get_array_type_columns Scenario.orders "orders"
      (Scenario.sampled [VStr "a"; VStr "b"]) = (Ok tt, w') /\
    _results (self w') = [[VStr "tags"; VStr "keyword"]].
Proof. eexists. split; [vm_compute; reflexivity|reflexivity]. Qed.

(** The case the amended statement leaves out: on an empty sampled
    sequence the detector reads its first element, and nothing is
    published. *)
Example empty_sequence_raises :
  get_array_type_columns Scenario.orders "orders" (Scenario.sampled [])
  = (Raise IndexError,
     mkWorld (self (Scenario.sampled [])) [OList []]
             [CallGetMapping "orders"; CallSearch "orders"]).
Proof. vm_compute. reflexivity. Qed.

(** ** Dispatch and publication *)

(** C1. On a cursor that has executed nothing, a statement answered with
    one column and the row (x) publishes the description of that column,
    and the row as the empty tuple: the row was aligned against the
    description held before the call, where the Row Processor, given the
    new description, returns (x). *)
Theorem execute_rows_against_previous_description :
  exists w',
    execute (libraries := Scenario.plain) Scenario.select_a "SELECT a FROM t" None
            Scenario.fresh = (Ok tt, w') /\
    description (self w')
      = Some (get_description_from_columns_with_arrays
                [mkColumn (Some "a") (Some "text")]) /\
    _results (self w') = [[]] /\
    _process_row (description (self w')) [VStr "x"] (objects w')
      = Ok ([VStr "x"], objects w').
Proof.
  eexists. split; [vm_compute; reflexivity|]. by repeat split.
Qed.

(** C4. Scenario B on a cursor that has executed nothing: the rows of
    SHOW TABLES are published as empty tuples, and reading the name of the
    first of them raises IndexError, after the version, the tables and the
    index statistics were requested.  On a cursor that already holds the
    description of SHOW TABLES the same statement lists [orders] alone. *)
Theorem valid_tables_on_fresh_cursor :
  (exists w',
     execute (libraries := Scenario.plain) Scenario.two_indices "SHOW VALID_TABLES" None
             Scenario.fresh = (Raise IndexError, w') /\
     calls w' = [CallInfo; CallSql "SHOW TABLES"; CallCatIndices] /\
     _results (self w') = [[]; []]) /\
  (exists w1 w2,
     execute (libraries := Scenario.plain) Scenario.two_indices "SHOW TABLES" None
             Scenario.fresh = (Ok tt, w1) /\
     execute (libraries := Scenario.plain) Scenario.two_indices "SHOW VALID_TABLES" None
             w1 = (Ok tt, w2) /\
     _results (self w2)
       = [[VStr "es"; VStr "orders"; VStr "TABLE"; VStr "INDEX"]]).
Proof.
  split.
  - eexists. split; [vm_compute; reflexivity|]. by split.
  - eexists _, _. split; [vm_compute; reflexivity|].
    split; [vm_compute; reflexivity|]. reflexivity.
Qed.

(** C5. Written in lower case, the third pseudo-statement is not
    recognised: it is sent to the SQL endpoint, and no mapping is
    requested; written in upper case it reaches the Array Detector.  The
    first two are recognised in any casing. *)
Theorem lowercase_array_columns_forwarded :
  (exists w',
     execute (libraries := Scenario.plain) Scenario.orders
             "show array_columns from orders" None
             (Scenario.sampled [VStr "a"; VStr "b"])
       = (Raise (ProgrammingError "parsing_exception"), w') /\
     calls w' = [CallSql "show array_columns from orders"]) /\
  (exists w',
     execute (libraries := Scenario.plain) Scenario.orders
             "SHOW ARRAY_COLUMNS FROM orders" None
             (Scenario.sampled [VStr "a"; VStr "b"]) = (Ok tt, w') /\
     calls w' = [CallGetMapping "orders"; CallSearch "orders"] /\
     _results (self w') = [[VStr "tags"; VStr "keyword"]]) /\
  classify "Show Valid_Tables" = ValidTables /\
  classify "show VALID_views" = ValidViews.
Proof.
  split; [|split; [|split]].
  - eexists. split; [vm_compute; reflexivity|]. reflexivity.
  - eexists. split; [vm_compute; reflexivity|]. by split.
  - reflexivity.
  - reflexivity.
Qed.

(** * Further properties *)

(** ** Type Mapper and description *)

(** The description has one entry per column of the response, in order:
    the name of the column (the empty string when it has none), ARRAY when
    the raw type contains array in any casing and STRING otherwise,
    whatever the raw type, and no size, precision, scale or null flag. *)
Theorem description_follows_columns (columns : list column) (i : nat)
    (c : column) (Hc : columns !! i = Some c) :
  length (get_description_from_columns_with_arrays columns) = length columns /\
  exists d,
    get_description_from_columns_with_arrays columns !! i = Some d /\
    name d = default "" (col_name c) /\
    (type_code d = ARRAY <->
       exists pre post,
         lower (default "" (col_type c)) = (pre ++ "array" ++ post)%string) /\
    (type_code d = ARRAY \/ type_code d = STRING) /\
    display_size d = None /\ internal_size d = None /\ precision d = None /\
    scale d = None /\ null_ok d = None.
Proof.
  unfold get_description_from_columns_with_arrays.
  split; [apply length_map|].
  eexists. split.
  { change (map ?f ?l) with (f <$> l). rewrite list_lookup_fmap, Hc. reflexivity. }
  simpl. split; [done|]. unfold from_es_type.
  destruct (contains "array" (lower (default "" (col_type c)))) eqn:E.
  - apply contains_spec in E. repeat split; auto.
  - repeat split; auto; try done.
    intros E'%contains_spec. congruence.
Qed.

Lemma description_follows_columns_witness :
  length (get_description_from_columns_with_arrays
            [mkColumn (Some "id") (Some "long"); mkColumn None (Some "Array")]) = 2 /\
  exists d,
    get_description_from_columns_with_arrays
      [mkColumn (Some "id") (Some "long"); mkColumn None (Some "Array")] !! 1
      = Some d /\
    name d = "" /\
    (type_code d = ARRAY <->
       exists pre post, "array" = (pre ++ "array" ++ post)%string) /\
    (type_code d = ARRAY \/ type_code d = STRING) /\
    display_size d = None /\ internal_size d = None /\ precision d = None /\
    scale d = None /\ null_ok d = None.
Proof.
  apply (description_follows_columns
           [mkColumn (Some "id") (Some "long"); mkColumn None (Some "Array")]
           1 (mkColumn None (Some "Array"))).
  reflexivity.
Defined.

(** ** Row Processor *)

Lemma process_from_plain ds row : forall idx h,
  Forall (fun d => type_code d <> ARRAY) ds ->
  process_from (Some ds) idx row h = Ok (take (length ds - idx) row, h).
Proof.
  induction row as [|value rest IH]; intros idx h Hplain.
  { by rewrite take_nil. }
  cbn [process_from aligned].
  destruct (ds !! idx) as [d|] eqn:Hd.
  - assert (ESType_eqb (type_code d) ARRAY = false) as ->.
    { apply ESType_eqb_not_ARRAY.
      eapply Forall_forall in Hplain; [exact Hplain|].
      by eapply list_elem_of_lookup_2. }
    rewrite IH by done. cbn [rbind].
    apply lookup_lt_Some in Hd.
    replace (length ds - idx) with (S (length ds - S idx)) by lia. done.
  - rewrite IH by done. apply lookup_ge_None_1 in Hd.
    by replace (length ds - idx) with 0 by lia; replace (length ds - S idx) with 0 by lia.
Qed.

(** Under a description without ARRAY columns [_process_row] returns, for
    any row at all, the values of the row up to the length of the
    description, and allocates nothing. *)
Theorem process_row_without_arrays (ds : list CursorDescriptionRow)
    (row : list val) (h : store)
    (Hplain : Forall (fun d => type_code d <> ARRAY) ds) :
  _process_row (Some ds) row h = Ok (take (length ds) row, h).
Proof.
  unfold _process_row. rewrite process_from_plain by done.
  by rewrite Nat.sub_0_r.
Qed.

Lemma process_row_without_arrays_witness :
  _process_row
    (Some [mkDescriptionRow "id" STRING None None None None None])
    [VRef 5; VInt 2] []
  = Ok ([VRef 5], []).
Proof.
  apply (process_row_without_arrays
           [mkDescriptionRow "id" STRING None None None None None]
           [VRef 5; VInt 2] []).
  repeat constructor. discriminate.
Defined.

Lemma dict_grows h item v h' :
  dict h item = Ok (v, h') -> h `prefix_of` h'.
Proof.
  unfold dict. destruct item as [| | |s|l]; try done.
  - destruct s; [|done]. intros [= <- <-]. by apply prefix_app_r.
  - destruct (h !! l) as [[xs|kvs]|]; [| |done].
    + destruct (dict_of_pairs h [] xs); [|done].
      intros [= <- <-]. by apply prefix_app_r.
    + intros [= <- <-]. by apply prefix_app_r.
Qed.

Lemma copy_items_grows items : forall h copies h',
  copy_items h items = Ok (copies, h') -> h `prefix_of` h'.
Proof.
  induction items as [|item rest IH]; intros h copies h' Hrun.
  { by injection Hrun as <- <-. }
  cbn [copy_items] in Hrun.
  destruct (dict h item) as [[c h1]|] eqn:Hc; [|done]. cbn [rbind] in Hrun.
  destruct (copy_items h1 rest) as [[cs h2]|] eqn:Hcs; [|done].
  injection Hrun as <- <-.
  trans h1; [by eapply dict_grows|by eapply IH].
Qed.

Lemma _process_array_value_grows h v v' h' :
  _process_array_value h v = Ok (v', h') -> h `prefix_of` h'.
Proof.
  unfold _process_array_value.
  destruct v as [| | | |l]; try (by intros [= <- <-]).
  destruct (h !! l) as [[[|first rest]|kvs]|]; try (by intros [= <- <-]).
  destruct (is_dict h first); [|by intros [= <- <-]].
  destruct (copy_items h (first :: rest)) as [[copies h1]|] eqn:Hc; [|done].
  intros [= <- <-]. trans h1; [by eapply copy_items_grows|by apply prefix_app_r].
Qed.

Lemma process_from_grows description row : forall idx h out h',
  process_from description idx row h = Ok (out, h') -> h `prefix_of` h'.
Proof.
  induction row as [|value rest IH]; intros idx h out h' Hrun.
  { by injection Hrun as <- <-. }
  cbn [process_from] in Hrun.
  destruct (aligned description idx) as [d|]; [|by eapply IH].
  destruct (ESType_eqb (type_code d) ARRAY).
  - destruct (_process_array_value h value) as [[v' h1]|] eqn:Hv; [|done].
    cbn [rbind] in Hrun.
    destruct (process_from description (S idx) rest h1) as [[vs h2]|] eqn:Hvs;
      [|done].
    injection Hrun as <- <-.
    trans h1; [by eapply _process_array_value_grows|by eapply IH].
  - destruct (process_from description (S idx) rest h) as [[vs h2]|] eqn:Hvs;
      [|done].
    injection Hrun as <- <-. by eapply IH.
Qed.

(** Whenever [_process_row] returns, every object of the store it started
    from is still there, unchanged: the Row Processor only allocates. *)
Theorem process_row_keeps_objects
    (description : option (list CursorDescriptionRow)) (row out : list val)
    (h h' : store)
    (Hrun : _process_row description row h = Ok (out, h')) :
  length h <= length h' /\
  forall l o, h !! l = Some o -> h' !! l = Some o.
Proof.
  apply process_from_grows in Hrun. split; [by apply prefix_length|].
  intros l o Hl. by eapply prefix_lookup_Some.
Qed.

Lemma process_row_keeps_objects_witness :
  length Scenario.nested_store
    <= length (Scenario.nested_store
               ++ [ ODict [(KStr "sku", VStr "a1"); (KStr "qty", VInt 2)];
                    ODict [(KStr "sku", VStr "b7"); (KStr "qty", VInt 1)];
                    OList [VRef 3; VRef 4] ]) /\
  forall l o,
    Scenario.nested_store !! l = Some o ->
    (Scenario.nested_store
     ++ [ ODict [(KStr "sku", VStr "a1"); (KStr "qty", VInt 2)];
          ODict [(KStr "sku", VStr "b7"); (KStr "qty", VInt 1)];
          OList [VRef 3; VRef 4] ]) !! l = Some o.
Proof.
  apply (process_row_keeps_objects (Some Scenario.nested_description)
           Scenario.nested_row [VInt 7; VRef 5] Scenario.nested_store).
  reflexivity.
Defined.

Lemma copy_items_mixed pre : forall h x post,
  forallb (is_dict h) pre = true -> scalar_item x = true ->
  copy_items h (pre ++ x :: post) = Raise TypeError.
Proof.
  induction pre as [|item pre IH]; intros h x post Hpre Hx.
  - simpl. by destruct x.
  - simpl in Hpre. apply andb_true_iff in Hpre as [Hitem Hpre].
    destruct item as [| | | |l]; simpl in Hitem; try done.
    destruct (h !! l) as [[xs|kvs]|] eqn:E; try done.
    cbn [app copy_items]. rewrite (dict_of_mapping h l kvs E). cbn [rbind].
    rewrite IH; [done| |done].
    apply (forallb_is_dict_prefix h); [by apply prefix_app_r|done].
Qed.

(** A list whose first items are structured objects and that holds None,
    a boolean or an integer further on makes [_process_array_value] raise
    TypeError: only the first item is inspected before all are copied. *)
Theorem process_array_value_mixed_list (h : store) (l : loc)
    (first x : val) (pre post : list val)
    (Hlist : h !! l = Some (OList (first :: pre ++ x :: post)))
    (Hobjects : forallb (is_dict h) (first :: pre) = true)
    (Hscalar : scalar_item x = true) :
  _process_array_value h (VRef l) = Raise TypeError.
Proof.
  unfold _process_array_value. rewrite Hlist.
  simpl in Hobjects. apply andb_true_iff in Hobjects as [Hfirst Hpre].
  rewrite Hfirst.
  change (first :: pre ++ x :: post) with ((first :: pre) ++ x :: post).
  rewrite (copy_items_mixed (first :: pre) h x post); [done| |done].
  simpl. by rewrite Hfirst.
Qed.

Lemma process_array_value_mixed_list_witness :
  _process_array_value [ODict [(KStr "a", VInt 1)]; OList [VRef 0; VInt 5]]
                       (VRef 1) = Raise TypeError.
Proof.
  apply (process_array_value_mixed_list
           [ODict [(KStr "a", VInt 1)]; OList [VRef 0; VInt 5]] 1
           (VRef 0) (VInt 5) [] []); reflexivity.
Defined.

(** ** Reading a row by column name *)

Lemma find_col_spec ds row col : forall idx,
  find_col idx ds row col =
    match list_find (fun d => name d = col) ds with
    | Some (i, _) =>
        match row !! (idx + i) with
        | Some v => Ok v
        | None => Raise IndexError
        end
    | None => Ok VNone
    end.
Proof.
  induction ds as [|d ds IH]; intros idx; [done|].
  cbn [find_col list_find].
  destruct (String.eqb_spec (name d) col) as [E|E].
  - rewrite decide_True by done. by rewrite Nat.add_0_r.
  - rewrite decide_False by done. rewrite IH.
    destruct (list_find _ ds) as [[i d']|]; [|done]. simpl.
    by replace (idx + S i) with (S idx + i) by lia.
Qed.

(** [_get_value_for_col_name] reads the row at the position of the first
    column of that name; it answers None when no column has the name, and
    raises IndexError when the row is too short. *)
Theorem get_value_for_col_name_first_match (ds : list CursorDescriptionRow)
    (row : list val) (col : string) :
  _get_value_for_col_name (Some ds) row col =
    match list_find (fun d => name d = col) ds with
    | Some (i, _) =>
        match row !! i with
        | Some v => Ok v
        | None => Raise IndexError
        end
    | None => Ok VNone
    end.
Proof. unfold _get_value_for_col_name. by rewrite find_col_spec. Qed.

(** ** Table and view listing *)



(** Whatever the listing returns is a sub-sequence of the rows of SHOW
    TABLES, and each returned row has the requested type. *)
Theorem valid_rows_sublist (description : option (list CursorDescriptionRow))
    (response : list cat_index) (type_filter : string)
    (results out : list (list val))
    (Hrun : valid_rows description response type_filter results = Ok out) :
  out `sublist_of` results /\
  Forall (fun r => exists t,
            _get_value_for_col_name description r "type" = Ok t /\
            str_eq_val type_filter t = true) out.
Proof.
  revert out Hrun. induction results as [|r results IH]; intros out Hrun.
  { injection Hrun as <-. by split. }
  cbn [valid_rows] in Hrun.
  destruct (is_empty description r response) as [e|]; [|done]. cbn [rbind] in Hrun.
  destruct e.
  - cbn [rbind] in Hrun.
    destruct (valid_rows description response type_filter results) as [more|];
      [|done].
    injection Hrun as <-. destruct (IH more eq_refl) as [Hsub Hall].
    split; [by apply sublist_cons|done].
  - destruct (_get_value_for_col_name description r "type") as [t|] eqn:Ht; [|done].
    cbn [rbind] in Hrun.
    destruct (valid_rows description response type_filter results) as [more|];
      [|done].
    injection Hrun as <-. destruct (IH more eq_refl) as [Hsub Hall].
    destruct (str_eq_val type_filter t) eqn:Hkeep.
    + split; [by apply sublist_skip|]. constructor; [by exists t|done].
    + split; [by apply sublist_cons|done].
Qed.

Lemma is_empty_count_error description r n pre item post e :
  _get_value_for_col_name description r "name" = Ok n ->
  Forall (fun it => str_eq_val (index it) n = false) pre ->
  str_eq_val (index item) n = true ->
  int_of_count (docs_count item) = Raise e ->
  is_empty description r (pre ++ item :: post) = Raise e.
Proof.
  intros Hn Hpre Hitem Hcount.
  induction Hpre as [|it pre Hit _ IH]; cbn [app is_empty]; rewrite Hn; cbn [rbind].
  - by rewrite Hitem, Hcount.
  - by rewrite Hit.
Qed.

(** When the first listed index that has the name of the first row has a
    null document count, the listing raises TypeError. *)
Theorem valid_rows_null_count (description : option (list CursorDescriptionRow))
    (type_filter : string) (r : list val) (rest : list (list val)) (n : val)
    (pre post : list cat_index) (item : cat_index)
    (Hname : _get_value_for_col_name description r "name" = Ok n)
    (Hpre : Forall (fun it => str_eq_val (index it) n = false) pre)
    (Hitem : str_eq_val (index item) n = true)
    (Hnull : docs_count item = None) :
  valid_rows description (pre ++ item :: post) type_filter (r :: rest)
  = Raise TypeError.
Proof.
  cbn [valid_rows].
  rewrite (is_empty_count_error description r n pre item post TypeError); try done.
  by rewrite Hnull.
Qed.

(** When SHOW TABLES succeeded and the request for the index statistics
    fails, the listing raises that exception and leaves the cursor as SHOW
    TABLES published it: the unfiltered rows stay. *)
Theorem listing_statistics_failure (execute_ : string -> M unit) (cl : cluster)
    (type_filter : string) (w w1 : world) (e : exn)
    (Hshow : execute_ "SHOW TABLES" w = (Ok tt, w1))
    (Hstats : cat_indices cl = Fails e) :
  get_valid_table_view_names execute_ cl type_filter w
  = (Raise e, mkWorld (self w1) (objects w1) (calls w1 ++ [CallCatIndices])).
Proof.
  unfold get_valid_table_view_names, bind at 1. rewrite Hshow.
  unfold bind at 1, request. by rewrite Hstats.
Qed.

Section Listing.
Context {libraries : Libraries}.

(** When the version of the cluster cannot be obtained or compared,
    [get_valid_table_names] raises that exception after the single request
    for it: no statement is executed and the cursor is unchanged. *)
Theorem listing_version_failure (execute_ : string -> M unit) (cl : cluster)
    (w : world) (e : exn)
    (Hversion :
       info_version_number cl = Fails e \/
       exists number, info_version_number cl = Reply number /\
                      version_ge number "7.10.0" = Raise e) :
  get_valid_table_names execute_ cl w
  = (Raise e, mkWorld (self w) (objects w) (calls w ++ [CallInfo])).
Proof.
  unfold get_valid_table_names, bind at 1, request.
  destruct Hversion as [->|(number & -> & Hge)]; [done|].
  unfold bind at 1, lift. by rewrite Hge.
Qed.

End Listing.

(** ** Array Detector *)

(** An index that the cluster does not know: the NotFoundError of the
    mapping request becomes a ProgrammingError with the error and its
    detail, no sample is requested, and the cursor is unchanged. *)
Theorem detect_index_not_found (cl : cluster) (table_name : string) (w : world)
    (error info : string)
    (Hmapping : indices_get_mapping cl table_name
                = Fails (EsNotFoundError error info)) :
  get_array_type_columns cl table_name w
  = (Raise (ProgrammingError ("Error (" ++ error ++ "): " ++ info)),
     mkWorld (self w) (objects w) (calls w ++ [CallGetMapping table_name])).
Proof.
  cbv [get_array_type_columns bind get_self try_except request].
  by rewrite Hmapping.
Qed.

(** A ConnectionError of the mapping request or of the sample request
    becomes an OperationalError that names the URL of the cursor, and the
    cursor is unchanged. *)
Theorem detect_unreachable (cl : cluster) (table_name : string) (w : world)
    (info : string)
    (Hfail :
       indices_get_mapping cl table_name = Fails (EsConnectionError info) \/
       exists mapping im,
         indices_get_mapping cl table_name = Reply mapping /\
         assoc table_name mapping = Some im /\
         search cl table_name = Fails (EsConnectionError info)) :
  exists w',
    get_array_type_columns cl table_name w
    = (Raise (OperationalError
                ("Error connecting to " ++ url (self w) ++ ": " ++ info)), w') /\
    self w' = self w /\ objects w' = objects w.
Proof.
  cbv [get_array_type_columns bind get_self try_except request lift].
  destruct Hfail as [->|(mapping & im & -> & -> & ->)]; by eexists.
Qed.

(** When the mapping reply has no entry under the requested name, the
    detector raises KeyError, which no handler translates, before any
    sample is requested. *)
Theorem detect_unknown_key (cl : cluster) (table_name : string) (w : world)
    (mapping : list (string * index_mapping))
    (Hmapping : indices_get_mapping cl table_name = Reply mapping)
    (Hmissing : assoc table_name mapping = None) :
  get_array_type_columns cl table_name w
  = (Raise KeyError,
     mkWorld (self w) (objects w) (calls w ++ [CallGetMapping table_name])).
Proof.
  cbv [get_array_type_columns bind get_self try_except request lift].
  by rewrite Hmapping, Hmissing.
Qed.

Lemma field_array_columns_shape h source f fm es :
  field_array_columns h source f fm = Ok es -> Forall entry_shape es.
Proof.
  unfold field_array_columns.
  destruct (fm_type fm) as [[| | |ty|]|]; try (by intros [= <-]).
  destruct (dict_get source (KStr f)) as [[| | | |l]|]; try (by intros [= <-]).
  destruct (h !! l) as [[[|first rest]|kvs]|]; try done; try (by intros [= <-]).
  assert (Forall entry_shape [[VStr f; VStr ty]]) as Hone.
  { constructor; [by exists f, ty|done]. }
  destruct first as [| | | |l0]; try (by intros [= <-]).
  destruct (h !! l0) as [[xs|kvs]|]; try (by intros [= <-]).
  intros [= <-]. apply Forall_forall. intros row Hrow.
  apply list_elem_of_In, in_map_iff in Hrow as (k & <- & _). by eexists _, ty.
Qed.

Lemma scan_properties_shape h source props : forall acc out,
  Forall entry_shape acc ->
  scan_properties h source props acc = Ok out -> Forall entry_shape out.
Proof.
  induction props as [|[f fm] props IH]; intros acc out Hacc Hrun.
  { by injection Hrun as <-. }
  cbn [scan_properties] in Hrun.
  destruct (field_array_columns h source f fm) as [found|] eqn:Hf; [|done].
  cbn [rbind] in Hrun. eapply IH; [|exact Hrun].
  apply Forall_app. split; [done|by eapply field_array_columns_shape].
Qed.

(** Whenever the detector succeeds, the cursor holds the two-column
    description and rows of exactly two strings, the store is unchanged,
    and exactly two requests were made: the mapping, then the sample. *)
Theorem detect_result_shape (cl : cluster) (table_name : string) (w w' : world)
    (Hrun : get_array_type_columns cl table_name w = (Ok tt, w')) :
  description (self w')
    = Some [ mkDescriptionRow "name" STRING None None None None None;
             mkDescriptionRow "type" STRING None None None None None ] /\
  Forall entry_shape (_results (self w')) /\
  objects w' = objects w /\
  calls w' = calls w ++ [CallGetMapping table_name; CallSearch table_name] /\
  url (self w') = url (self w) /\ closed (self w') = closed (self w).
Proof.
  revert Hrun.
  cbv [get_array_type_columns bind get_self try_except request lift ret
       read_store set_description set_results].
  destruct (indices_get_mapping cl table_name) as [mapping|]; [|done].
  destruct (assoc table_name mapping) as [im|]; [|done].
  destruct (search cl table_name) as [response|]; [|done].
  cbn [self objects calls url closed description _results].
  destruct (total_value response >? 0)%Z.
  - destruct (hits response) as [|hit0 more]; [done|].
    destruct (_source hit0) as [source|]; [|done].
    destruct (scan_properties _ source _ []) as [out|] eqn:Hscan; [|done].
    intros [= <-]. cbn. rewrite <- app_assoc.
    repeat split; try done. by eapply scan_properties_shape.
  - intros [= <-]. cbn. rewrite <- app_assoc. by repeat split.
Qed.

(** Whenever the detector fails, whatever the exception, the cursor and
    the store are as before the call. *)
Theorem detect_failure_leaves_cursor (cl : cluster) (table_name : string)
    (w w' : world) (e : exn)
    (Hrun : get_array_type_columns cl table_name w = (Raise e, w')) :
  self w' = self w /\ objects w' = objects w.
Proof.
  revert Hrun.
  cbv [get_array_type_columns bind get_self try_except request lift ret
       read_store set_description set_results].
  destruct (indices_get_mapping cl table_name) as [mapping|]; [|by intros [= _ <-]].
  destruct (assoc table_name mapping) as [im|]; [|by intros [= _ <-]].
  destruct (search cl table_name) as [response|]; [|by intros [= _ <-]].
  cbn [self objects calls url closed description _results].
  destruct (total_value response >? 0)%Z; [|done].
  destruct (hits response) as [|hit0 more]; [by intros [= _ <-]|].
  destruct (_source hit0) as [source|]; [|by intros [= _ <-]].
  destruct (scan_properties _ source _ []) as [out|] eqn:Hscan; [done|].
  by intros [= _ <-].
Qed.

(** ** Real SQL statements *)

Lemma self_process_row_frame row w r w' :
  self_process_row row w = (r, w') -> self w' = self w /\ calls w' = calls w.
Proof.
  unfold self_process_row, bind, get_self, on_store.
  destruct (_process_row _ row (objects w)) as [[out h]|]; by intros [= <- <-].
Qed.

Lemma process_rows_frame rows : forall w r w',
  mapM self_process_row rows w = (r, w') ->
  self w' = self w /\ calls w' = calls w /\
  forall out, r = Ok out -> length out = length rows.
Proof.
  induction rows as [|row rows IH]; intros w r w' Hrun.
  { injection Hrun as <- <-. repeat split. by intros out [= <-]. }
  cbn [mapM] in Hrun. unfold bind at 1 in Hrun.
  destruct (self_process_row row w) as [[o|e] w1] eqn:Hrow;
    apply self_process_row_frame in Hrow as [Hs Hc].
  - unfold bind at 1 in Hrun.
    destruct (mapM self_process_row rows w1) as [[os|e] w2] eqn:Hrows;
      apply IH in Hrows as (Hs2 & Hc2 & Hlen).
    + injection Hrun as <- <-. repeat split; [congruence..|].
      intros out [= <-]. simpl. by rewrite (Hlen os).
    + injection Hrun as <- <-. repeat split; [congruence..|done].
  - injection Hrun as <- <-. by repeat split.
Qed.

Section RealSql.
Context {libraries : Libraries}.

(** Whenever a real SQL statement succeeds, the response had a non-empty
    columns field from which the description was built, the cursor holds
    as many rows as the response, and the one request made is that
    statement, after the substitution of its parameters. *)
Theorem execute_sql_success (cl : cluster) (operation : string)
    (parameters : option params) (w w' : world)
    (Hrun : execute_sql cl operation parameters w = (Ok tt, w')) :
  exists query results c cs,
    apply_parameters operation parameters = Ok query /\
    sql cl query = Ok results /\
    resp_columns results = Some (c :: cs) /\
    description (self w')
      = Some (get_description_from_columns_with_arrays (c :: cs)) /\
    length (_results (self w')) = length (default [] (resp_rows results)) /\
    calls w' = calls w ++ [CallSql query] /\
    url (self w') = url (self w) /\ closed (self w') = closed (self w).
Proof.
  revert Hrun. unfold execute_sql, bind at 1, lift.
  destruct (apply_parameters operation parameters) as [query|]; [|done].
  unfold bind at 1, elastic_query.
  destruct (sql cl query) as [results|] eqn:Hres; [|done].
  unfold bind at 1.
  destruct (mapM self_process_row _ _) as [[rows|e'] w1] eqn:Hrows;
    apply process_rows_frame in Hrows as (Hs & Hc & Hlen); [|done].
  unfold columns_of.
  destruct (resp_columns results) as [[|c cs]|] eqn:Hcols; try done.
  unfold bind, set_results, set_description. intros [= <-].
  exists query, results, c, cs. cbn.
  rewrite Hs, Hc. repeat split; try done. by apply Hlen.
Qed.

(** On an open cursor, SHOW ARRAY_COLUMNS FROM followed by any text runs
    the detector on that text up to the end of its first line, as it is
    written; the parameters are not used. *)
Theorem execute_array_columns (cl : cluster) (table_name : string)
    (parameters : option params) (w : world)
    (Hopen : closed (self w) = false) :
  execute cl ("SHOW ARRAY_COLUMNS FROM " ++ table_name) parameters w
  = get_array_type_columns cl (first_line table_name) w.
Proof.
  rewrite (execute_by_class cl _ parameters w Hopen).
  by rewrite classify_array_columns.
Qed.

End RealSql.

(** ** Dialect *)

Import Dialect.

Lemma take_chars_app s t : take_chars (String.length s) (s ++ t) = s.
Proof. induction s as [|c s IH]; simpl; [by destruct t|by rewrite IH]. Qed.

Lemma length_append s t :
  String.length (s ++ t) = String.length s + String.length t.
Proof. induction s as [|c s IH]; simpl; [done|by rewrite IH]. Qed.

Lemma slice_to_last_inner prefix inner last :
  slice_to_last (String.length prefix) (prefix ++ inner ++ String last EmptyString)
  = inner.
Proof.
  unfold slice_to_last.
  assert (drop_chars (String.length prefix)
            (prefix ++ inner ++ String last EmptyString)
          = (inner ++ String last EmptyString)%string) as ->.
  { induction prefix as [|c p IH]; simpl; [by destruct (inner ++ _)%string|done]. }
  rewrite length_append. cbn [String.length].
  replace (String.length inner + 1 - 1) with (String.length inner) by lia.
  apply take_chars_app.
Qed.

Section DialectProperties.
Context {sqltype : Type}.
Variable get_type : string -> sqltype.
Variable String_type : sqltype.
Variable unsupported : list string.

(** [_get_array_type] takes what lies between the prefix and the last
    character as the element type, whatever that last character is; the
    prefix is matched in lower case only. *)
Theorem get_array_type_drops_last (inner : string) (last : ascii) :
  _get_array_type get_type ("array<" ++ inner ++ String last EmptyString)
    = Some (ESArray (get_type inner)) /\
  _get_array_type get_type ("ARRAY<" ++ inner ++ String last EmptyString)
    = None.
Proof.
  split; [|reflexivity].
  unfold _get_array_type.
  rewrite (startswith_app "array<").
  pose proof (slice_to_last_inner "array<" inner last) as E.
  cbn [String.length] in E. by rewrite E.
Qed.

End DialectProperties.

Lemma get_table_names_filter result :
  Forall (fun n => n <> EmptyString) result ->
  get_table_names result
  = Ok (List.filter (fun n => negb (startswith "." n)) result).
Proof.
  induction 1 as [|n result Hn _ IH]; [done|].
  cbn [get_table_names List.filter]. destruct n as [|c n]; [done|].
  rewrite IH. cbn [rbind startswith]. 
  rewrite (Ascii.eqb_sym c). destruct (Ascii.eqb "." c); by destruct n.
Qed.

(** [get_table_names] and [get_view_names] return the names that do not
    begin with a dot, in order, when no name is empty; an empty name raises
    IndexError. *)
Theorem table_names_without_dot (pre post : list string)
    (Hnames : Forall (fun n => n <> EmptyString) pre) :
  get_table_names pre
    = Ok (List.filter (fun n => negb (startswith "." n)) pre) /\
  get_view_names pre = get_table_names pre /\
  get_table_names (pre ++ EmptyString :: post) = Raise IndexError.
Proof.
  split; [by apply get_table_names_filter|]. split; [done|].
  induction Hnames as [|n pre Hn _ IH]; [done|].
  cbn [app get_table_names]. destruct n as [|c n]; [done|]. by rewrite IH.
Qed.

Lemma table_names_without_dot_witness :
  get_table_names ["orders"; ".kibana"; "logs"]
    = Ok (List.filter (fun n => negb (startswith "." n))
                      ["orders"; ".kibana"; "logs"]) /\
  get_view_names ["orders"; ".kibana"; "logs"]
    = get_table_names ["orders"; ".kibana"; "logs"] /\
  get_table_names (["orders"; ".kibana"; "logs"] ++ EmptyString :: ["late"])
    = Raise IndexError.
Proof.
  apply (table_names_without_dot ["orders"; ".kibana"; "logs"] ["late"]).
  repeat constructor; discriminate.
Defined.

Section Columns.
Context {sqltype : Type}.
Variable get_type : string -> sqltype.
Variable String_type : sqltype.
Variable unsupported : list string.

Lemma collect_arrays_spec arr :
  (forall n, n ∈ (collect_arrays arr).1 <-> n ∈ map row_name arr) /\
  (forall n, (collect_arrays arr).2 !! n = last_type n arr).
Proof.
  unfold collect_arrays. induction arr as [|a arr IH] using rev_ind.
  { split; intros n; [|done]. cbn. rewrite elem_of_empty. by rewrite elem_of_nil. }
  destruct IH as [IHset IHmap]. rewrite fold_left_app. cbn [fold_left fst snd].
  split; intros n.
  - rewrite map_app, elem_of_app, elem_of_union, IHset, elem_of_singleton.
    cbn [map]. rewrite list_elem_of_singleton. tauto.
  - unfold last_type. rewrite omap_app.
    assert (omap (fun a0 => if decide (row_name a0 = n) then row_type a0 else None) [a]
            = match (if decide (row_name a = n) then row_type a else None) with
              | Some t => [t]
              | None => []
              end) as -> by (cbn; by destruct (if decide _ then _ else _)).
    destruct (row_type a) as [t|] eqn:Ht.
    + destruct (decide (row_name a = n)) as [->|Hne].
      * rewrite lookup_insert_eq. by rewrite last_snoc.
      * rewrite lookup_insert_ne by done. rewrite app_nil_r. apply IHmap.
    + assert ((if decide (row_name a = n) then @None string else None) = None)
        as -> by (by destruct (decide _)).
      rewrite app_nil_r. apply IHmap.
Qed.

Lemma get_columns_fold arr all : forall acc,
  fold_left
    (fun columns row =>
       if bool_decide (row_mapping row ∈ unsupported)
       then columns
       else
         columns ++
         [mkColInfo (row_column row) true VNone
            (if bool_decide (row_column row ∈ (collect_arrays arr).1)
             then ESArray match (collect_arrays arr).2 !! row_column row with
                          | Some t => get_type t
                          | None => String_type
                          end
             else Plain (get_type (row_mapping row)))])
    all acc
  = acc ++
    map (fun r => mkColInfo (row_column r) true VNone
                    (reflected_type get_type String_type arr r))
        (List.filter (fun r => negb (bool_decide (row_mapping r ∈ unsupported)))
                     all).
Proof.
  destruct (collect_arrays_spec arr) as [Hset Hmap].
  induction all as [|r all IH]; intros acc; [by rewrite app_nil_r|].
  cbn [fold_left List.filter]. rewrite IH.
  destruct (bool_decide (row_mapping r ∈ unsupported)); cbn [negb]; [done|].
  cbn [map]. rewrite <- app_assoc. cbn [app]. do 3 f_equal.
  unfold reflected_type. rewrite Hmap.
  by rewrite (bool_decide_ext _ _ (Hset (row_column r))).
Qed.

(** [get_columns] lists the columns whose mapping is supported, in order,
    each nullable and without default; a column that some row of SHOW
    ARRAY_COLUMNS names is typed ESArray of the type of the last such row
    that carries one (of String when none does), any other column by its
    own mapping. *)
Theorem get_columns_spec (all_columns : list columns_row)
    (array_columns_result : list array_row) :
  get_columns get_type String_type unsupported all_columns array_columns_result
  = map (fun r => mkColInfo (row_column r) true VNone
                    (reflected_type get_type String_type array_columns_result r))
        (List.filter (fun r => negb (bool_decide (row_mapping r ∈ unsupported)))
                     all_columns).
Proof. unfold get_columns. by rewrite get_columns_fold. Qed.

End Columns.

(** ** The further properties at the scenarios *)


Lemma valid_rows_sublist_witness :
  [[VStr "es"; VStr "orders"; VStr "TABLE"; VStr "INDEX"]]
    `sublist_of` Scenario.tables_rows /\
  Forall (fun r => exists t,
            _get_value_for_col_name (Some Scenario.tables_description) r "type"
              = Ok t /\
            str_eq_val "TABLE" t = true)
         [[VStr "es"; VStr "orders"; VStr "TABLE"; VStr "INDEX"]].
Proof.
  apply (valid_rows_sublist (Some Scenario.tables_description)
           Scenario.tables_statistics "TABLE" Scenario.tables_rows).
  reflexivity.
Defined.

Lemma valid_rows_null_count_witness :
  valid_rows (Some Scenario.tables_description)
             ([mkCatIndex "orders" (Some "5")]
              ++ mkCatIndex "empty_idx" None :: [])
             "TABLE"
             ([VStr "es"; VStr "empty_idx"; VStr "TABLE"; VStr "INDEX"] :: [])
  = Raise TypeError.
Proof.
  apply (valid_rows_null_count (Some Scenario.tables_description) "TABLE"
           [VStr "es"; VStr "empty_idx"; VStr "TABLE"; VStr "INDEX"] []
           (VStr "empty_idx") [mkCatIndex "orders" (Some "5")] []
           (mkCatIndex "empty_idx" None)).
  - reflexivity.
  - repeat constructor.
  - reflexivity.
  - reflexivity.
Defined.

Lemma listing_statistics_failure_witness :
  get_valid_table_view_names
    (fun op => execute_at (libraries := Scenario.plain) 1
                          Scenario.statistics_down op None)
    Scenario.statistics_down "VIEW" Scenario.fresh
  = (Raise (EsConnectionError "refused"),
     mkWorld (mkCursor "http://localhost:9200/" false
                       (Some Scenario.tables_description) [[]; []])
             [] ([CallSql "SHOW TABLES"] ++ [CallCatIndices])).
Proof.
  apply (listing_statistics_failure
           (fun op => execute_at (libraries := Scenario.plain) 1
                                 Scenario.statistics_down op None)
           Scenario.statistics_down "VIEW" Scenario.fresh
           (mkWorld (mkCursor "http://localhost:9200/" false
                              (Some Scenario.tables_description) [[]; []])
                    [] [CallSql "SHOW TABLES"])
           (EsConnectionError "refused")).
  - reflexivity.
  - reflexivity.
Defined.

Lemma listing_version_failure_witness :
  get_valid_table_names (libraries := Scenario.plain)
    (fun op => execute_at (libraries := Scenario.plain) 1
                          Scenario.info_down op None)
    Scenario.info_down Scenario.fresh
  = (Raise (EsConnectionError "refused"),
     mkWorld (self Scenario.fresh) (objects Scenario.fresh)
             (calls Scenario.fresh ++ [CallInfo])).
Proof.
  apply (listing_version_failure (libraries := Scenario.plain)
           (fun op => execute_at (libraries := Scenario.plain) 1
                                 Scenario.info_down op None)
           Scenario.info_down Scenario.fresh (EsConnectionError "refused")).
  left. reflexivity.
Defined.

Lemma detect_index_not_found_witness :
  get_array_type_columns Scenario.orders "missing" Scenario.fresh
  = (Raise (ProgrammingError
              ("Error (" ++ "index_not_found_exception" ++ "): "
               ++ "no such index")),
     mkWorld (self Scenario.fresh) (objects Scenario.fresh)
             (calls Scenario.fresh ++ [CallGetMapping "missing"])).
Proof.
  apply (detect_index_not_found Scenario.orders "missing" Scenario.fresh
           "index_not_found_exception" "no such index").
  reflexivity.
Defined.

Lemma detect_unreachable_witness :
  exists w',
    get_array_type_columns Scenario.mapping_down "orders" Scenario.fresh
    = (Raise (OperationalError
                ("Error connecting to " ++ url (self Scenario.fresh) ++ ": "
                 ++ "refused")), w') /\
    self w' = self Scenario.fresh /\ objects w' = objects Scenario.fresh.
Proof.
  apply (detect_unreachable Scenario.mapping_down "orders" Scenario.fresh
           "refused").
  left. reflexivity.
Defined.

Lemma detect_unknown_key_witness :
  get_array_type_columns Scenario.aliased "orders_alias" Scenario.fresh
  = (Raise KeyError,
     mkWorld (self Scenario.fresh) (objects Scenario.fresh)
             (calls Scenario.fresh ++ [CallGetMapping "orders_alias"])).
Proof.
  apply (detect_unknown_key Scenario.aliased "orders_alias" Scenario.fresh
           [("orders", mkIndexMapping (Some Scenario.tags_properties))]);
    reflexivity.
Defined.

Lemma detect_result_shape_witness :
  description (self (get_array_type_columns Scenario.orders "orders"
       (Scenario.sampled [VStr "a"; VStr "b"])).2)
    = Some [ mkDescriptionRow "name" STRING None None None None None;
             mkDescriptionRow "type" STRING None None None None None ] /\
  Forall entry_shape (_results (self (get_array_type_columns Scenario.orders "orders"
       (Scenario.sampled [VStr "a"; VStr "b"])).2)) /\
  objects (get_array_type_columns Scenario.orders "orders"
       (Scenario.sampled [VStr "a"; VStr "b"])).2
    = objects (Scenario.sampled [VStr "a"; VStr "b"]) /\
  calls (get_array_type_columns Scenario.orders "orders"
       (Scenario.sampled [VStr "a"; VStr "b"])).2
    = calls (Scenario.sampled [VStr "a"; VStr "b"])
      ++ [CallGetMapping "orders"; CallSearch "orders"] /\
  url (self (get_array_type_columns Scenario.orders "orders"
       (Scenario.sampled [VStr "a"; VStr "b"])).2)
    = url (self (Scenario.sampled [VStr "a"; VStr "b"])) /\
  closed (self (get_array_type_columns Scenario.orders "orders"
       (Scenario.sampled [VStr "a"; VStr "b"])).2)
    = closed (self (Scenario.sampled [VStr "a"; VStr "b"])).
Proof.
  apply (detect_result_shape Scenario.orders "orders"
           (Scenario.sampled [VStr "a"; VStr "b"])
           (get_array_type_columns Scenario.orders "orders"
              (Scenario.sampled [VStr "a"; VStr "b"])).2).
  reflexivity.
Defined.

Lemma detect_failure_leaves_cursor_witness :
  self (get_array_type_columns Scenario.orders "orders" (Scenario.sampled [])).2
    = self (Scenario.sampled []) /\
  objects (get_array_type_columns Scenario.orders "orders"
             (Scenario.sampled [])).2
    = objects (Scenario.sampled []).
Proof.
  apply (detect_failure_leaves_cursor Scenario.orders "orders"
           (Scenario.sampled [])
           (get_array_type_columns Scenario.orders "orders"
              (Scenario.sampled [])).2
           IndexError).
  reflexivity.
Defined.

Lemma execute_sql_success_witness :
  exists query results c cs,
    apply_parameters (Libraries := Scenario.plain) "SELECT a FROM t" None
      = Ok query /\
    sql Scenario.select_a query = Ok results /\
    resp_columns results = Some (c :: cs) /\
    description (self (execute_sql (libraries := Scenario.plain) Scenario.select_a
       "SELECT a FROM t" None Scenario.fresh).2)
      = Some (get_description_from_columns_with_arrays (c :: cs)) /\
    length (_results (self (execute_sql (libraries := Scenario.plain) Scenario.select_a
       "SELECT a FROM t" None Scenario.fresh).2)) = length (default [] (resp_rows results)) /\
    calls (execute_sql (libraries := Scenario.plain) Scenario.select_a
       "SELECT a FROM t" None Scenario.fresh).2
      = calls Scenario.fresh ++ [CallSql query] /\
    url (self (execute_sql (libraries := Scenario.plain) Scenario.select_a
       "SELECT a FROM t" None Scenario.fresh).2) = url (self Scenario.fresh) /\
    closed (self (execute_sql (libraries := Scenario.plain) Scenario.select_a
       "SELECT a FROM t" None Scenario.fresh).2) = closed (self Scenario.fresh).
Proof.
  apply (execute_sql_success (libraries := Scenario.plain) Scenario.select_a
           "SELECT a FROM t" None Scenario.fresh
           (execute_sql (libraries := Scenario.plain) Scenario.select_a
              "SELECT a FROM t" None Scenario.fresh).2).
  reflexivity.
Defined.

Lemma execute_array_columns_witness :
  execute (libraries := Scenario.plain) Scenario.orders
          ("SHOW ARRAY_COLUMNS FROM " ++ "orders") None
          (Scenario.sampled [VStr "a"; VStr "b"])
  = get_array_type_columns Scenario.orders (first_line "orders")
                           (Scenario.sampled [VStr "a"; VStr "b"]).
Proof.
  apply (execute_array_columns (libraries := Scenario.plain) Scenario.orders
           "orders" None (Scenario.sampled [VStr "a"; VStr "b"])).
  reflexivity.
Defined.
